(** * POML2VFC: the POML-to-VFC conversion engine

    A shallow embedding of [src/POML2VFC.py] (class [POMLToVFCParser]):
    the recursive element visitor [_process_element], the header and footer
    emitters and [parse], together with the properties of the visitor that
    the specification states.

    Conventions of the embedding.
    - A Python [str] is a [string]; one [ascii] stands for one code point in
      the range U+0000..U+00FF.  The [str] methods that the converter calls
      ([strip], [split], [lower], [in], [join]) are defined on that range in
      module [Py].
    - An [xml.etree.ElementTree.Element] is the record [Element]: its tag,
      its attribute dictionary (a [gmap]), its optional text and the list of
      its children in document order.
    - The converter object is the record [POMLToVFCParser]; methods are
      computations of the monad [M], which threads the object and carries a
      raised exception together with the object as the exception left it.
    - [ET.fromstring] and [datetime.now().strftime] belong to the Python
      library; they are parameters of section [Converter].
    - [_process_element] and [parse] are the visitor and the conversion on
      an interpreter whose stack is large enough for the document;
      [_process_element_within] and [parse_within] carry the number of
      nested calls that the interpreter still allows, and raise
      [RecursionError] beyond it.

    The later parts embed [convert_poml_file] of the same file over an
    abstract file system, the script
    [src/NeetSheetsROI.py] over the lines of its standard input, and the
    visitor of the earlier converter [src/_POML2VFC.py]. *)

From Stdlib Require Import Ascii ZArith Lia Bool.
From stdpp Require Import base option list gmap strings pretty.

Local Open Scope nat_scope.

(** ** Python string primitives *)

Module Py.

(** The double-quote character, written inside the f-strings of the source. *)
Definition dq : string := String (ascii_of_nat 34) EmptyString.

(** The line-feed character ['\n']. *)
Definition LF : ascii := ascii_of_nat 10.
Definition nl : string := String LF EmptyString.

(** [str.isspace] on one character (code points below 256):
    TAB, LF, VT, FF, CR, FS, GS, RS, US, SPACE, NEL, NBSP. *)
Definition isspace (c : ascii) : bool :=
  let n := nat_of_ascii c in
  ((9 <=? n) && (n <=? 13)) || ((28 <=? n) && (n <=? 32))
  || (n =? 133) || (n =? 160).

Fixpoint lstrip (s : string) : string :=
  match s with
  | EmptyString => EmptyString
  | String c s' => if isspace c then lstrip s' else s
  end.

Fixpoint rstrip (s : string) : string :=
  match s with
  | EmptyString => EmptyString
  | String c s' =>
      match rstrip s' with
      | EmptyString => if isspace c then EmptyString else String c EmptyString
      | r => String c r
      end
  end.

(** [s.strip()] *)
Definition strip (s : string) : string := rstrip (lstrip s).

(** [s.split(sep)] for a one-character separator: never the empty list. *)
Fixpoint split (sep : ascii) (s : string) : list string :=
  match s with
  | EmptyString => [EmptyString]
  | String c s' =>
      if Ascii.eqb c sep then EmptyString :: split sep s'
      else match split sep s' with
           | [] => [String c EmptyString]
           | w :: ws => String c w :: ws
           end
  end.

(** [c in s] for a one-character needle. *)
Fixpoint contains (c : ascii) (s : string) : bool :=
  match s with
  | EmptyString => false
  | String c' s' => Ascii.eqb c' c || contains c s'
  end.

(** [str.lower] on one character: A-Z and the upper-case letters of the
    Latin-1 block (U+00C0..U+00DE without the multiplication sign). *)
Definition lower_char (c : ascii) : ascii :=
  let n := nat_of_ascii c in
  if ((65 <=? n) && (n <=? 90))
     || ((192 <=? n) && (n <=? 222) && negb (n =? 215))
  then ascii_of_nat (n + 32) else c.

Fixpoint lower (s : string) : string :=
  match s with
  | EmptyString => EmptyString
  | String c s' => String (lower_char c) (lower s')
  end.

(** [sep.join(l)] *)
Fixpoint join (sep : string) (l : list string) : string :=
  match l with
  | [] => EmptyString
  | [x] => x
  | x :: l' => x +:+ sep +:+ join sep l'
  end.

(** Truth value of a string in a condition: non-empty. *)
Definition truthy (s : string) : bool :=
  match s with EmptyString => false | _ => true end.

(** Every character of [s] is white space ([s] may be empty). *)
Fixpoint all_space (s : string) : bool :=
  match s with
  | EmptyString => true
  | String c s' => isspace c && all_space s'
  end.

(** [s.count(c)] for a one-character needle. *)
Fixpoint count (c : ascii) (s : string) : nat :=
  match s with
  | EmptyString => 0
  | String c' s' => (if Ascii.eqb c' c then 1 else 0) + count c s'
  end.

(** [s.startswith(p)] *)
Fixpoint startswith (p s : string) : bool :=
  match p, s with
  | EmptyString, _ => true
  | String a p', String b s' => Ascii.eqb a b && startswith p' s'
  | String _ _, EmptyString => false
  end.

End Py.

(** ** The element tree *)

(** [xml.etree.ElementTree.Element]: [tag], [attrib], [text] ([None] or a
    string) and the children in document order. *)
#[warnings="-register-all"]
Inductive Element : Type :=
  mkElement {
    tag : string;
    attrib : gmap string string;
    text : option string;
    children : list Element
  }.

(** [element.get(key, default)] *)
Definition get (element : Element) (key default : string) : string :=
  match attrib element !! key with
  | Some v => v
  | None => default
  end.

(** ** The converter object and its monad *)

Record POMLToVFCParser : Type :=
  mkParser {
    vfc_lines : list string;
    indent_level : Z
  }.

(** [POMLToVFCParser.__init__] *)
Definition __init__ : POMLToVFCParser :=
  {| vfc_lines := []; indent_level := 0%Z |}.

(** The exceptions that the operations of the converter can raise. *)
Inductive exn : Type :=
| IndexError
| AttributeError
| ParseError (diagnostic : string)
| ValueError (msg : string)
| RecursionError
| UnicodeEncodeError (msg : string).

Inductive result (A : Type) : Type :=
| Ok (a : A)
| Raise (e : exn).
Arguments Ok {A} a.
Arguments Raise {A} e.

(** A method body: it reads and updates the converter object and either
    returns a value or raises. *)
Definition M (A : Type) : Type := POMLToVFCParser -> result A * POMLToVFCParser.

Definition ret {A} (a : A) : M A := fun self => (Ok a, self).
Definition raise {A} (e : exn) : M A := fun self => (Raise e, self).
Definition bind {A B} (m : M A) (k : A -> M B) : M B :=
  fun self =>
    match m self with
    | (Ok a, self') => k a self'
    | (Raise e, self') => (Raise e, self')
    end.

Notation "x <- m ;; k" := (bind m (fun x => k))
  (at level 100, m at next level, right associativity).
Notation "m ;;; k" := (bind m (fun _ => k))
  (at level 100, right associativity).

(** [self.vfc_lines.append(line)] *)
Definition append (line : string) : M unit :=
  fun self =>
    (Ok tt, {| vfc_lines := vfc_lines self ++ [line];
               indent_level := indent_level self |}).

(** [self.vfc_lines.extend(lines)] *)
Definition extend (lines : list string) : M unit :=
  fun self =>
    (Ok tt, {| vfc_lines := vfc_lines self ++ lines;
               indent_level := indent_level self |}).

(** [l[0]]: raises [IndexError] on the empty list. *)
Definition index_first (l : list string) : M string :=
  match l with
  | [] => raise IndexError
  | x :: _ => ret x
  end.

(** [l[-1]]: raises [IndexError] on the empty list. *)
Definition index_last (l : list string) : M string :=
  match last l with
  | None => raise IndexError
  | Some x => ret x
  end.

(** [l[1:]] *)
Definition slice_from_1 (l : list string) : list string := drop 1 l.

(** [t.strip()] on a value that may be [None]: [None] has no such attribute. *)
Definition strip_method (t : option string) : M string :=
  match t with
  | None => raise AttributeError
  | Some s => ret (Py.strip s)
  end.

(** Truth value of [element.text]: [None] and the empty string are false. *)
Definition text_truthy (t : option string) : bool :=
  match t with
  | None => false
  | Some s => Py.truthy s
  end.

(** A [for] statement over a list. *)
Definition for_each {A} (l : list A) (body : A -> M unit) : M unit :=
  (fix each (l : list A) : M unit :=
     match l with
     | [] => ret tt
     | x :: l' => body x ;;; each l'
     end) l.

(** ** The element visitor *)

(** [f'set(name="{name}" value="{value}");'] *)
Definition set_name_value (name value : string) : string :=
  "set(name=" +:+ Py.dq +:+ name +:+ Py.dq +:+ " value=" +:+ Py.dq
  +:+ value +:+ Py.dq +:+ ");".

(** [f'set({line});'] *)
Definition set_line (line : string) : string := "set(" +:+ line +:+ ");".

(** The literal of source line 78: [set(]] followed by a double quote and
    [);]. *)
Definition set_closing_bracket : string := "set(]" +:+ Py.dq +:+ ");".

(** [f'branch(if  condition="{condition}");'] (two spaces after [if]) *)
Definition branch_line (condition : string) : string :=
  "branch(if  condition=" +:+ Py.dq +:+ condition +:+ Py.dq +:+ ");".

(** [f'path(condition="{condition}");'] *)
Definition path_condition_line (condition : string) : string :=
  "path(condition=" +:+ Py.dq +:+ condition +:+ Py.dq +:+ ");".

(** The body of the [let] branch (source lines 60-83). *)
Definition process_let (element : Element) : M unit :=
  let name := get element "name" "" in
  let value := get element "value" "" in
  (if Py.contains Py.LF value then
     let lines := Py.split Py.LF (Py.strip value) in
     l0 <- index_first lines ;;
     let first_line := Py.strip l0 in
     append (set_name_value name first_line) ;;;
     for_each (slice_from_1 lines) (fun line =>
       let line := Py.strip line in
       if Py.truthy line && negb (String.eqb line "]")
       then append (set_line line)
       else ret tt) ;;;
     ll <- index_last lines ;;
     if String.eqb (Py.strip ll) "]"
     then append set_closing_bracket
     else ret tt
   else
     append (set_name_value name value)) ;;;
  append "end();" ;;;
  append "".

(** [element.text.strip() if element.text else ''] *)
Definition stripped_text (element : Element) : M string :=
  if text_truthy (text element) then strip_method (text element) else ret "".

(** [_process_element] (source lines 49-142). *)
Fixpoint _process_element (element : Element) : M unit :=
  let tag := Py.lower (tag element) in
  if String.eqb tag "poml" then
    for_each (children element) _process_element
  else if String.eqb tag "let" then
    process_let element
  else if String.eqb tag "task" then
    task_text <- stripped_text element ;;
    append ("input(" +:+ task_text +:+ ");")
  else if String.eqb tag "for" then
    let each_var := get element "each" "" in
    let in_var := get element "in" "" in
    append "loop(for each);" ;;;
    for_each (children element) _process_element ;;;
    append "lend();"
  else if String.eqb tag "if" then
    let condition := get element "condition" "" in
    append (branch_line condition) ;;;
    append "path();" ;;;
    for_each (children element) _process_element
  else if String.eqb tag "elseif" then
    let condition := get element "condition" "" in
    append (path_condition_line condition) ;;;
    for_each (children element) _process_element
  else if String.eqb tag "else" then
    append "path(else);" ;;;
    for_each (children element) _process_element ;;;
    append "bend();"
  else if String.eqb tag "p" then
    text <- stripped_text element ;;
    append ("output(" +:+ text +:+ ");")
  else
    for_each (children element) _process_element.

(** [_add_footer] (source lines 144-157). *)
Definition footer : list string :=
  [ "end();";
    "";
    "";
    "";
    ";INSECTA EMBEDDED SESSION INFORMATION";
    "; 255 16777215 65280 16777088 16711680 13158600 13158600 0 255 255 9895835 6946660 3289650";
    ";       //   ...";
    "; notepad.exe";
    ";INSECTA EMBEDDED ALTSESSION INFORMATION";
    "; 1286 256 1272 1162 0 160   632   226    default.key  0" ].

Definition _add_footer : M unit := extend footer.

(** [try: body except ET.ParseError as e: handler(str(e))]: the other
    exceptions pass through. *)
Definition try_except_ParseError {A} (body : M A) (handler : string -> M A)
  : M A :=
  fun self =>
    match body self with
    | (Raise (ParseError d), self') => handler d self'
    | r => r
    end.

(** ** The lines of an element, as a function of the tree

    [emitted] gives the lines that the visitor appends for an element, by
    recursion on the tree; lemma [process_element_appends] proves that
    [_process_element] appends exactly these lines. *)

(** The lines of the [let] rule. *)
Definition trimmed_lines (value : string) : list string :=
  map Py.strip (Py.split Py.LF (Py.strip value)).

Definition continuation_line (line : string) : bool :=
  Py.truthy line && negb (String.eqb line "]").

Definition let_lines (element : Element) : list string :=
  let name := get element "name" "" in
  let value := get element "value" "" in
  (if Py.contains Py.LF value then
     let lines := trimmed_lines value in
     [set_name_value name (hd "" lines)]
     ++ map set_line (List.filter continuation_line (tail lines))
     ++ (if decide (last lines = Some "]") then [set_closing_bracket] else [])
   else [set_name_value name value])
  ++ ["end();"; ""].

(** The text between the parentheses of [input(...)] and [output(...)]. *)
Definition text_field (element : Element) : string :=
  match text element with
  | Some s => Py.strip s
  | None => ""
  end.

(** The rule that the visitor selects: the first matching branch of the
    [if]/[elif] chain on the lower-cased tag. *)
Inductive rule : Type :=
| RPoml | RLet | RTask | RFor | RIf | RElseif | RElse | RP | ROther.

Definition rule_of (element : Element) : rule :=
  let tag := Py.lower (tag element) in
  if String.eqb tag "poml" then RPoml
  else if String.eqb tag "let" then RLet
  else if String.eqb tag "task" then RTask
  else if String.eqb tag "for" then RFor
  else if String.eqb tag "if" then RIf
  else if String.eqb tag "elseif" then RElseif
  else if String.eqb tag "else" then RElse
  else if String.eqb tag "p" then RP
  else ROther.

(** Whether the rule walks the children. *)
Definition recurses (element : Element) : bool :=
  match rule_of element with
  | RLet | RTask | RP => false
  | _ => true
  end.

(** Lines that the rule appends before, and after, the children. *)
Definition opening (element : Element) : list string :=
  match rule_of element with
  | RLet => let_lines element
  | RTask => ["input(" +:+ text_field element +:+ ");"]
  | RFor => ["loop(for each);"]
  | RIf => [branch_line (get element "condition" ""); "path();"]
  | RElseif => [path_condition_line (get element "condition" "")]
  | RElse => ["path(else);"]
  | RP => ["output(" +:+ text_field element +:+ ");"]
  | RPoml | ROther => []
  end.

Definition closing (element : Element) : list string :=
  match rule_of element with
  | RFor => ["lend();"]
  | RElse => ["bend();"]
  | _ => []
  end.

Fixpoint emitted (element : Element) : list string :=
  opening element
  ++ (if recurses element
      then concat (map emitted (children element))
      else [])
  ++ closing element.

(** The lines of a sequence of siblings. *)
Definition emitted_all (elements : list Element) : list string :=
  concat (map emitted elements).

(** The converter object after [lines] have been appended to its buffer. *)
Definition appended (self : POMLToVFCParser) (lines : list string)
  : POMLToVFCParser :=
  {| vfc_lines := vfc_lines self ++ lines; indent_level := indent_level self |}.

(** A computation that succeeds and only appends [lines]. *)
Definition appends {A} (m : M A) (a : A) (lines : list string) : Prop :=
  forall self, m self = (Ok a, appended self lines).

(** ** [parse] and the library around it *)

Section Converter.

(** [datetime] objects and [datetime.strftime(format)]. *)
Variable datetime : Type.
Variable strftime : datetime -> string -> string.

(** [ET.fromstring]: the root element, or the message of the
    [ET.ParseError] that it raises. *)
Variable fromstring : string -> Element + string.

Definition ET_fromstring (content : string) : M Element :=
  match fromstring content with
  | inl root => ret root
  | inr diagnostic => raise (ParseError diagnostic)
  end.

(** The six lines that [_add_header] appends (source lines 40-47). *)
Definition header (time_str filename : string) : list string :=
  [ ";  IRL FlowCode Version: Version 10.0";
    ";  c1995-2015: Visual Flow Coder by 2LResearch";
    ";";
    ";  File Name : " +:+ filename;
    ";  File Date : " +:+ time_str;
    "" ].

(** [_add_header]; [now] is the value that [datetime.now()] returns
    during the call. *)
Definition _add_header (now : datetime) (filename : string) : M unit :=
  let time_str := strftime now "%I:%M:%S %p - %d:%b:%Y" in
  extend (header time_str filename).

(** [self.vfc_lines = []; self.indent_level = 0] *)
Definition reset : M unit :=
  fun _ => (Ok tt, {| vfc_lines := []; indent_level := 0%Z |}).

(** [parse] (source lines 12-33); the clock reading [now] is explicit. *)
Definition parse (now : datetime) (poml_content output_filename : string)
  : M string :=
  reset ;;;
  _add_header now output_filename ;;;
  try_except_ParseError
    (root <- ET_fromstring poml_content ;;
     _process_element root ;;;
     _add_footer)
    (fun e => raise (ValueError ("Invalid POML XML: " +:+ e))) ;;;
  fun self => (Ok (Py.join Py.nl (vfc_lines self)), self).

(** The buffer of a conversion that succeeds. *)
Definition converted_lines (now : datetime) (filename : string)
           (root : Element) : list string :=
  header (strftime now "%I:%M:%S %p - %d:%b:%Y") filename
  ++ emitted root ++ footer.

End Converter.

(** ** Examples of elements *)

(** The first non-empty string of a list, or the empty string. *)
Definition first_nonempty (l : list string) : string :=
  match List.find Py.truthy l with
  | Some x => x
  | None => ""
  end.



(** [<let name="x" value="1"/>] *)
Definition let_x_1 : Element :=
  mkElement "let" {[ "name" := "x"; "value" := "1" ]} None [].

(** A [let] whose value is [a,], [b,] and a closing bracket on three lines. *)
Definition let_a_b_bracket : Element :=
  mkElement "let"
    {[ "name" := "xs";
       "value" := "a," +:+ Py.nl +:+ "  b," +:+ Py.nl +:+ "]" ]} None [].

(** A [let] whose value is a line feed between spaces. *)
Definition let_blank_value : Element :=
  mkElement "Let" {[ "name" := "v"; "value" := " " +:+ Py.nl +:+ "  " ]} None [].




(** ** Statement tokens in the buffer *)

(** A buffer entry is a [keyword] token when it starts with the keyword and
    an opening parenthesis. *)
Definition is_token (keyword line : string) : bool :=
  Py.startswith (keyword +:+ "(") line.

Definition count_tokens (keyword : string) (lines : list string) : nat :=
  length (List.filter (is_token keyword) lines).

(** The keywords of the block tokens, and the rule that emits each. *)
Definition block_keyword (keyword : string) : Prop :=
  keyword = "loop" \/ keyword = "lend" \/ keyword = "branch" \/ keyword = "bend".

Definition keyword_rule (keyword : string) : rule :=
  if String.eqb keyword "loop" then RFor
  else if String.eqb keyword "lend" then RFor
  else if String.eqb keyword "branch" then RIf
  else if String.eqb keyword "bend" then RElse
  else ROther.

(** ** Elements of a document *)

#[global] Instance rule_eq_dec : EqDecision rule.
Proof. solve_decision. Defined.

(** Whether the document under [element] has an element whose lower-cased
    tag is [name]. *)
Fixpoint contains_tag (name : string) (element : Element) : bool :=
  String.eqb (Py.lower (tag element)) name
  || existsb (contains_tag name) (children element).

(** The number of elements that the walk from [element] visits and handles
    with rule [r]. *)
Fixpoint visited (r : rule) (element : Element) : nat :=
  (if decide (rule_of element = r) then 1 else 0)
  + (if recurses element
     then sum_list (map (visited r) (children element))
     else 0).

Definition visited_all (r : rule) (elements : list Element) : nat :=
  sum_list (map (visited r) elements).

(** The element at a path of child indices. *)
Fixpoint subelement (element : Element) (path : list nat) : option Element :=
  match path with
  | [] => Some element
  | i :: path' =>
      match children element !! i with
      | Some child => subelement child path'
      | None => None
      end
  end.

(** Where the lines of the element at [path] lie in [emitted element]:
    the offset of its first line and the number of its lines; [None] when
    there is no such element or the walk does not visit it. *)
Fixpoint span (element : Element) (path : list nat) : option (nat * nat) :=
  match path with
  | [] => Some (0, length (emitted element))
  | i :: path' =>
      if recurses element then
        match children element !! i with
        | Some child =>
            match span child path' with
            | Some (a, n) =>
                Some (length (opening element)
                      + length (emitted_all (take i (children element)))
                      + a, n)
            | None => None
            end
        | None => None
        end
      else None
  end.

(** The walk from [element] visits the element at [path]. *)
Definition visits (element : Element) (path : list nat) : Prop :=
  is_Some (span element path).

(** Where the first line of child [i] lies in [emitted element]. *)
Definition child_offset (element : Element) (i : nat) : nat :=
  length (opening element)
  + length (emitted_all (take i (children element))).

(** Two runs of lines, [a, a') and [b, b'), do not interleave: they are
    disjoint or one lies within the other. *)
Definition no_interleaving (a a' b b' : nat) : Prop :=
  a' <= b \/ b' <= a \/ (a <= b /\ b' <= a') \/ (b <= a /\ a' <= b').

(** ** Sample documents and a sample instance of the library *)

Definition sample_strftime (now : unit) (format : string) : string :=
  "01:13:23 PM - 15:Sep:2025".

(** A document parser that returns [document]. *)
Definition parser_of (document : Element) : string -> Element + string :=
  fun _ => inl document.

(** The buffer after [parse] has converted [document]. *)
Definition sample_conversion (document : Element) : list string :=
  vfc_lines
    (snd (parse unit sample_strftime (parser_of document) tt
            "" "converted.py.vfc" __init__)).

(** [<poml><else/></poml>] *)
Definition else_only : Element :=
  mkElement "poml" ∅ None [ mkElement "else" ∅ None [] ].

(** [<poml><p>items<for each="x" in="xs"><task>t</task></for></p></poml>] *)
Definition for_inside_p : Element :=
  mkElement "poml" ∅ None
    [ mkElement "p" ∅ (Some "items")
        [ mkElement "for" {[ "each" := "x"; "in" := "xs" ]} None
            [ mkElement "task" ∅ (Some "t") [] ] ] ].

(** [<poml><p><if condition="c"/><else/></p></poml>] *)
Definition if_else_inside_p : Element :=
  mkElement "poml" ∅ None
    [ mkElement "p" ∅ None
        [ mkElement "if" {[ "condition" := "c" ]} None [];
          mkElement "else" ∅ None [] ] ].

(** [<poml><for each="x" in="xs"><if condition="c"><p>a</p></if>
    <else><p>b</p></else></for></poml>] *)
Definition for_if_else : Element :=
  mkElement "poml" ∅ None
    [ mkElement "for" {[ "each" := "x"; "in" := "xs" ]} None
        [ mkElement "if" {[ "condition" := "c" ]} None
            [ mkElement "p" ∅ (Some "a") [] ];
          mkElement "else" ∅ None
            [ mkElement "p" ∅ (Some "b") [] ] ] ].

(** [<poml><task>t</task><p>a</p></poml>] *)
Definition task_and_p : Element :=
  mkElement "poml" ∅ None
    [ mkElement "task" ∅ (Some "t") []; mkElement "p" ∅ (Some "a") [] ].

(** ** The visitor under the recursion limit of the interpreter *)

(** The body of [_process_element] (source lines 51-142), with the call
    [self._process_element(child)] as the parameter [recur]. *)
Definition visit (recur : Element -> M unit) (element : Element) : M unit :=
  let tag := Py.lower (tag element) in
  if String.eqb tag "poml" then
    for_each (children element) recur
  else if String.eqb tag "let" then
    process_let element
  else if String.eqb tag "task" then
    task_text <- stripped_text element ;;
    append ("input(" +:+ task_text +:+ ");")
  else if String.eqb tag "for" then
    let each_var := get element "each" "" in
    let in_var := get element "in" "" in
    append "loop(for each);" ;;;
    for_each (children element) recur ;;;
    append "lend();"
  else if String.eqb tag "if" then
    let condition := get element "condition" "" in
    append (branch_line condition) ;;;
    append "path();" ;;;
    for_each (children element) recur
  else if String.eqb tag "elseif" then
    let condition := get element "condition" "" in
    append (path_condition_line condition) ;;;
    for_each (children element) recur
  else if String.eqb tag "else" then
    append "path(else);" ;;;
    for_each (children element) recur ;;;
    append "bend();"
  else if String.eqb tag "p" then
    text <- stripped_text element ;;
    append ("output(" +:+ text +:+ ");")
  else
    for_each (children element) recur.

(** A recursive method whose body is [body], called while the interpreter
    allows [frames] more nested calls of it: with none left the call raises
    [RecursionError] before the body runs; otherwise the body runs, and its
    own calls have one frame less. *)
Fixpoint call_within (body : (Element -> M unit) -> Element -> M unit)
         (frames : nat) (element : Element) : M unit :=
  match frames with
  | 0 => raise RecursionError
  | S frames' => body (call_within body frames') element
  end.

(** [_process_element] when the interpreter allows [frames] nested calls. *)
Definition _process_element_within (frames : nat) (element : Element)
  : M unit :=
  call_within visit frames element.

(** The number of nested calls that the walk of a tree needs: one for the
    element, and those of its deepest child when the rule walks the
    children. *)
Fixpoint depth_of (walks_children : Element -> bool) (element : Element)
  : nat :=
  S (if walks_children element
     then max_list (map (depth_of walks_children) (children element))
     else 0).

Definition depth (element : Element) : nat := depth_of recurses element.

(** [n] [poml] elements around an empty [poml] element. *)
Fixpoint nested (n : nat) : Element :=
  match n with
  | 0 => mkElement "poml" ∅ None []
  | S n' => mkElement "poml" ∅ None [ nested n' ]
  end.

Section ConverterWithin.

Variable datetime : Type.
Variable strftime : datetime -> string -> string.

(** [ET.fromstring]: the root element, or the exception that it raises
    ([ET.ParseError] for a text that is not well formed; others, such as
    [UnicodeEncodeError], for a text that it cannot encode). *)
Variable et_fromstring : string -> Element + exn.

Definition ET_fromstring_raising (content : string) : M Element :=
  match et_fromstring content with
  | inl root => ret root
  | inr e => raise e
  end.

(** [parse] (source lines 12-33) when the interpreter allows [frames]
    nested calls of [_process_element]. *)
Definition parse_within (frames : nat) (now : datetime)
           (poml_content output_filename : string) : M string :=
  reset ;;;
  _add_header datetime strftime now output_filename ;;;
  try_except_ParseError
    (root <- ET_fromstring_raising poml_content ;;
     _process_element_within frames root ;;;
     _add_footer)
    (fun e => raise (ValueError ("Invalid POML XML: " +:+ e))) ;;;
  fun self => (Ok (Py.join Py.nl (vfc_lines self)), self).

End ConverterWithin.

(** A parser that returns [document] for every text. *)
Definition raising_parser_of (document : Element) : string -> Element + exn :=
  fun _ => inl document.

(** A parser that returns an empty root for the text [<poml/>], raises
    [UnicodeEncodeError] for the text [?], and [ET.ParseError] otherwise. *)
Definition sample_parser (content : string) : Element + exn :=
  if String.eqb content "<poml/>" then inl (mkElement "poml" ∅ None [])
  else if String.eqb content "?" then
    inr (UnicodeEncodeError "surrogates not allowed")
  else inr (ParseError "syntax error: line 1, column 0").

(** ** Nesting of block tokens *)

(** The nesting depth after [lines], starting from [depth]: an [opener]
    token adds one, a [closer] token takes one away; [None] when a closer
    comes while nothing is open. *)
Fixpoint depth_after (opener closer : string) (depth : nat)
         (lines : list string) : option nat :=
  match lines with
  | [] => Some depth
  | line :: lines' =>
      if is_token opener line then
        depth_after opener closer (S depth) lines'
      else if is_token closer line then
        match depth with
        | 0 => None
        | S depth' => depth_after opener closer depth' lines'
        end
      else depth_after opener closer depth lines'
  end.

(** Every closer has an earlier opener of its own, and nothing stays open. *)
Definition well_nested (opener closer : string) (lines : list string) : Prop :=
  depth_after opener closer 0 lines = Some 0.

(** ** What the visitor reads of a document *)

(** The attributes that a rule looks up and uses in a line. *)
Definition relevant_attributes (r : rule) (attributes : gmap string string)
  : gmap string string :=
  match r with
  | RLet => filter (fun kv => kv.1 = "name" \/ kv.1 = "value") attributes
  | RIf | RElseif => filter (fun kv => kv.1 = "condition") attributes
  | _ => ∅
  end.

(** The document with everything removed that the visitor does not read:
    tags in lower case, the attributes of [relevant_attributes], the text of
    [task] and [p] elements only, no children below [let], [task] and [p]. *)
Fixpoint essence (element : Element) : Element :=
  mkElement
    (Py.lower (tag element))
    (relevant_attributes (rule_of element) (attrib element))
    (match rule_of element with
     | RTask | RP => text element
     | _ => None
     end)
    (if recurses element then map essence (children element) else []).

(** ** Line feeds inside buffer entries *)

(** No name or condition that the visitor copies into a line, and no text
    of a visited [task] or [p] element, holds a line feed. *)
Fixpoint line_safe (element : Element) : bool :=
  match rule_of element with
  | RLet => negb (Py.contains Py.LF (get element "name" ""))
  | RTask | RP => negb (Py.contains Py.LF (text_field element))
  | RIf | RElseif => negb (Py.contains Py.LF (get element "condition" ""))
  | _ => true
  end
  && (if recurses element then forallb line_safe (children element) else true).

(** [<poml><For each="x"><LET name="n" value="1" unit="s">junk<p/></LET>
    </For></poml>], and the same document as the visitor reads it. *)
Definition noisy_document : Element :=
  mkElement "poml" {[ "version" := "1" ]} (Some "lead")
    [ mkElement "For" {[ "each" := "x" ]} None
        [ mkElement "LET" {[ "name" := "n"; "value" := "1"; "unit" := "s" ]}
            (Some "junk") [ mkElement "p" ∅ None [] ] ] ].

(** A [let] with a three-line value under a [task]. *)
Definition multi_line_document : Element :=
  mkElement "poml" ∅ None
    [ mkElement "task" ∅ (Some " sort ") [];
      mkElement "let"
        {[ "name" := "xs";
           "value" := "[" +:+ Py.nl +:+ " 1," +:+ Py.nl +:+ "]" ]} None [] ].

(** [<poml/>] *)
Definition empty_document : Element := mkElement "poml" ∅ None [].

(** ** [convert_poml_file] *)

(** What [convert_poml_file] can raise: its own [FileNotFoundError] and
    [IOError], and whatever [parse] raises, which it does not catch. *)
Inductive file_exn : Type :=
| FileNotFoundError (msg : string)
| IOError (msg : string)
| Uncaught (e : exn).

Section Files.

Variable datetime : Type.
Variable strftime : datetime -> string -> string.
Variable et_fromstring : string -> Element + exn.

(** The state of the file system, and the calls that reach it:
    [os.path.exists]; [open(path, 'r', encoding='utf-8')] with [f.read()],
    which gives the content or the message of the exception;
    [open(path, 'w', encoding='utf-8')] with [f.write(text)], which gives
    the message of the exception if there is one, and the file system it
    leaves. *)
Variable filesystem : Type.
Variable path_exists : filesystem -> string -> bool.
Variable read_file : filesystem -> string -> string + string.
Variable write_file : filesystem -> string -> string -> option string * filesystem.

(** [os.path.splitext] and [os.path.basename]. *)
Variable splitext : string -> string * string.
Variable basename : string -> string.

(** [convert_poml_file] (source lines 159-188); [frames] is the number of
    nested calls of the visitor that the interpreter allows inside the
    call, and [now] the clock reading of the call of [parse]. *)
Definition convert_poml_file (frames : nat) (now : datetime)
           (input_file : string) (output_file : option string)
           (fs : filesystem)
  : (file_exn + string) * filesystem :=
  if negb (path_exists fs input_file) then
    (inl (FileNotFoundError ("Input file not found: " +:+ input_file)), fs)
  else
    let output_file :=
      match output_file with
      | None =>
          let base_name := fst (splitext input_file) in
          base_name +:+ ".py.vfc"
      | Some output_file => output_file
      end in
    match read_file fs input_file with
    | inr e => (inl (IOError ("Error reading input file: " +:+ e)), fs)
    | inl poml_content =>
        let parser := __init__ in
        match fst (parse_within datetime strftime et_fromstring frames now
                     poml_content (basename output_file) parser) with
        | Raise e => (inl (Uncaught e), fs)
        | Ok vfc_content =>
            match write_file fs output_file vfc_content with
            | (Some e, fs') =>
                (inl (IOError ("Error writing output file: " +:+ e)), fs')
            | (None, fs') => (inr output_file, fs')
            end
        end
    end.

End Files.

(** ** [src/NeetSheetsROI.py] *)

Module NeetSheetsROI.

(** The dictionary of [get_cost]. *)
Definition costs : gmap string N :=
  {[ "shoulder" := 5000%N; "back" := 7000%N; "neck" := 3000%N ]}.

(** [get_cost]: [costs.get(injury_type.lower(), 0)]. *)
Definition get_cost (injury_type : string) : N :=
  match costs !! Py.lower injury_type with
  | Some cost => cost
  | None => 0%N
  end.

(** What the script writes to its standard output: the prompt of an
    [input(prompt)] call, or the line of a [print(line)] call. *)
Inductive output : Type :=
| Prompt (text : string)
| Print (line : string).

(** [input(prompt).strip().lower()] on the line that was read. *)
Definition answer (line : string) : string := Py.lower (Py.strip line).

Definition ask_another : string :=
  "Do you want to add another attendant? (yes/no): ".
Definition ask_injured : string := "Is the attendant injured? (yes/no): ".
Definition ask_location : string :=
  "How were they injured? (mattress lifting/pulling fitted sheets/bending and lifting): ".
Definition ask_type : string := "What type of injury? (shoulder/back/neck): ".

(** The [while True] loop of [main] on the remaining lines of the standard
    input, with the running total: what it writes, and the total when it
    leaves the loop by [break]; [None] when [input] meets the end of the
    input and raises [EOFError]. *)
Fixpoint attendants (stdin : list string) (total_losses : N)
  : list output * option N :=
  match stdin with
  | [] => ([Prompt ask_another], None)
  | line1 :: stdin1 =>
      let add_another := answer line1 in
      if negb (String.eqb add_another "yes") then
        ([Prompt ask_another], Some total_losses)
      else
        match stdin1 with
        | [] => ([Prompt ask_another; Prompt ask_injured], None)
        | line2 :: stdin2 =>
            let attendant_status := answer line2 in
            if String.eqb attendant_status "yes" then
              match stdin2 with
              | [] =>
                  ([Prompt ask_another; Prompt ask_injured;
                    Prompt ask_location], None)
              | line3 :: stdin3 =>
                  let injury_location := answer line3 in
                  if String.eqb injury_location "mattress lifting"
                     || String.eqb injury_location "pulling fitted sheets"
                     || String.eqb injury_location "bending and lifting"
                  then
                    match stdin3 with
                    | [] =>
                        ([Prompt ask_another; Prompt ask_injured;
                          Prompt ask_location; Prompt ask_type], None)
                    | line4 :: stdin4 =>
                        let injury_type := answer line4 in
                        let cost := get_cost injury_type in
                        let rest :=
                          attendants stdin4 (total_losses + cost)%N in
                        ([Prompt ask_another; Prompt ask_injured;
                          Prompt ask_location; Prompt ask_type;
                          Print ("Workers compensation cost for "
                                 +:+ injury_type +:+ ": $" +:+ pretty cost)]
                         ++ fst rest, snd rest)
                    end
                  else
                    let rest := attendants stdin3 total_losses in
                    ([Prompt ask_another; Prompt ask_injured;
                      Prompt ask_location;
                      Print "No cost for this injury location."]
                     ++ fst rest, snd rest)
              end
            else
              let rest := attendants stdin2 total_losses in
              ([Prompt ask_another; Prompt ask_injured;
                Print "No cost for this attendant."]
               ++ fst rest, snd rest)
        end
  end.

(** [main]: the loop from a total of zero, then the two closing lines. *)
Definition main (stdin : list string) : list output * option N :=
  match attendants stdin 0%N with
  | (written, Some total_losses) =>
      (written
       ++ [ Print (if (25000 <? total_losses)%N
                   then "CEO will schedule a call."
                   else "Total losses are within acceptable limits.");
            Print ("Total losses from workers' comp: $"
                   +:+ pretty total_losses) ],
       Some total_losses)
  | (written, None) => (written, None)
  end.

(** The three ways of injury that have a cost. *)
Definition known_location (injury_location : string) : bool :=
  String.eqb injury_location "mattress lifting"
  || String.eqb injury_location "pulling fitted sheets"
  || String.eqb injury_location "bending and lifting".

(** The standard input holds a complete dialog: attendants, each with all
    the answers that are asked of it, and then a line that does not answer
    [yes] to the question for another attendant.  Lines after that one
    are not read. *)
Inductive complete : list string -> Prop :=
| complete_stop line rest :
    answer line <> "yes" ->
    complete (line :: rest)
| complete_uninjured line1 line2 rest :
    answer line1 = "yes" ->
    answer line2 <> "yes" ->
    complete rest ->
    complete (line1 :: line2 :: rest)
| complete_unknown_location line1 line2 line3 rest :
    answer line1 = "yes" ->
    answer line2 = "yes" ->
    known_location (answer line3) = false ->
    complete rest ->
    complete (line1 :: line2 :: line3 :: rest)
| complete_injury line1 line2 line3 line4 rest :
    answer line1 = "yes" ->
    answer line2 = "yes" ->
    known_location (answer line3) = true ->
    complete rest ->
    complete (line1 :: line2 :: line3 :: line4 :: rest).

(** The number of injuries that were asked for their type. *)
Definition injuries (written : list output) : nat :=
  length (List.filter
            (fun o => match o with
                      | Prompt text => String.eqb text ask_type
                      | Print _ => false
                      end) written).

(** Four attendants with a back injury, then no more. *)
Definition four_back_injuries : list string :=
  [ "yes"; "yes"; "Mattress Lifting"; "back";
    "yes"; "yes"; "bending and lifting"; " Back ";
    "YES"; "yes"; "pulling fitted sheets"; "back";
    "yes"; "yes"; "mattress lifting"; "BACK";
    "no" ].

End NeetSheetsROI.

(** ** The visitor of [src/_POML2VFC.py] *)

Module Earlier.

(** [f'path( condition="{condition}");'] *)
Definition path_line (condition : string) : string :=
  "path( condition=" +:+ Py.dq +:+ condition +:+ Py.dq +:+ ");".

(** [f'path(if  condition="{condition}");'] *)
Definition path_if_line (condition : string) : string :=
  "path(if  condition=" +:+ Py.dq +:+ condition +:+ Py.dq +:+ ");".

(** [f"loop( {text} );"] with [text = f"for each {each_var}  in {in_var} "] *)
Definition loop_line (each_var in_var : string) : string :=
  let text := "for each " +:+ each_var +:+ "  in " +:+ in_var +:+ " " in
  "loop( " +:+ text +:+ " );".

(** [f"lend( next {each_var} );"] *)
Definition lend_line (each_var : string) : string :=
  "lend( next " +:+ each_var +:+ " );".

(** [f"set({regular_text});"] for an element with an unknown tag. *)
Definition wrapper_line (element_tag text : string) : string :=
  let regular_text :=
    "<" +:+ element_tag +:+ ">" +:+ text +:+ "</" +:+ element_tag +:+ ">" in
  "set(" +:+ regular_text +:+ ");".

(** [_process_element] of [src/_POML2VFC.py] (lines 50-114). *)
Fixpoint _process_element (element : Element) : M unit :=
  let element_tag := tag element in
  let tag := Py.lower element_tag in
  if String.eqb tag "poml" then
    for_each (children element) _process_element
  else if String.eqb tag "let" then
    let name := get element "name" "" in
    let value := get element "value" "" in
    append (set_name_value name value) ;;;
    append ""
  else if String.eqb tag "task" then
    append "end();" ;;;
    task_text <- stripped_text element ;;
    append ("input(" +:+ task_text +:+ ");")
  else if String.eqb tag "if" then
    append "branch( if );" ;;;
    let condition := get element "condition" "" in
    append (path_line condition) ;;;
    for_each (children element) _process_element
  else if String.eqb tag "for" then
    let each_var := get element "each" "" in
    let in_var := get element "in" "" in
    append (loop_line each_var in_var) ;;;
    for_each (children element) _process_element ;;;
    append (lend_line each_var)
  else if String.eqb tag "else if" || String.eqb tag "elseif" then
    let condition := get element "condition" "" in
    append (path_if_line condition) ;;;
    for_each (children element) _process_element
  else if String.eqb tag "else" then
    append "path(else);" ;;;
    for_each (children element) _process_element ;;;
    append "bend();"
  else if String.eqb tag "p" then
    text <- stripped_text element ;;
    append ("output(" +:+ text +:+ ");")
  else
    text <- stripped_text element ;;
    append (wrapper_line element_tag text) ;;;
    for_each (children element) _process_element.

(** The lines that this visitor appends, as a function of the tree; lemma
    [earlier_process_element_appends] proves that [_process_element]
    appends exactly these. *)
Definition opening (element : Element) : list string :=
  let element_tag := tag element in
  let tag := Py.lower element_tag in
  if String.eqb tag "poml" then []
  else if String.eqb tag "let" then
    [ set_name_value (get element "name" "") (get element "value" ""); "" ]
  else if String.eqb tag "task" then
    [ "end();"; "input(" +:+ text_field element +:+ ");" ]
  else if String.eqb tag "if" then
    [ "branch( if );"; path_line (get element "condition" "") ]
  else if String.eqb tag "for" then
    [ loop_line (get element "each" "") (get element "in" "") ]
  else if String.eqb tag "else if" || String.eqb tag "elseif" then
    [ path_if_line (get element "condition" "") ]
  else if String.eqb tag "else" then [ "path(else);" ]
  else if String.eqb tag "p" then
    [ "output(" +:+ text_field element +:+ ");" ]
  else [ wrapper_line element_tag (text_field element) ].

Definition closing (element : Element) : list string :=
  let tag := Py.lower (tag element) in
  if String.eqb tag "for" then [ lend_line (get element "each" "") ]
  else if String.eqb tag "else" then [ "bend();" ]
  else [].

Definition recurses (element : Element) : bool :=
  let tag := Py.lower (tag element) in
  negb (String.eqb tag "let" || String.eqb tag "task" || String.eqb tag "p").

Fixpoint emitted (element : Element) : list string :=
  opening element
  ++ (if recurses element
      then concat (map emitted (children element))
      else [])
  ++ closing element.

(** The body of this [_process_element], with the recursive call as the
    parameter [recur], and the visitor under the recursion limit. *)
Definition visit (recur : Element -> M unit) (element : Element) : M unit :=
  let element_tag := tag element in
  let tag := Py.lower element_tag in
  if String.eqb tag "poml" then
    for_each (children element) recur
  else if String.eqb tag "let" then
    let name := get element "name" "" in
    let value := get element "value" "" in
    append (set_name_value name value) ;;;
    append ""
  else if String.eqb tag "task" then
    append "end();" ;;;
    task_text <- stripped_text element ;;
    append ("input(" +:+ task_text +:+ ");")
  else if String.eqb tag "if" then
    append "branch( if );" ;;;
    let condition := get element "condition" "" in
    append (path_line condition) ;;;
    for_each (children element) recur
  else if String.eqb tag "for" then
    let each_var := get element "each" "" in
    let in_var := get element "in" "" in
    append (loop_line each_var in_var) ;;;
    for_each (children element) recur ;;;
    append (lend_line each_var)
  else if String.eqb tag "else if" || String.eqb tag "elseif" then
    let condition := get element "condition" "" in
    append (path_if_line condition) ;;;
    for_each (children element) recur
  else if String.eqb tag "else" then
    append "path(else);" ;;;
    for_each (children element) recur ;;;
    append "bend();"
  else if String.eqb tag "p" then
    text <- stripped_text element ;;
    append ("output(" +:+ text +:+ ");")
  else
    text <- stripped_text element ;;
    append (wrapper_line element_tag text) ;;;
    for_each (children element) recur.

Definition _process_element_within (frames : nat) (element : Element)
  : M unit :=
  call_within visit frames element.

End Earlier.

(** * Properties *)

(** ** Laws of the monad and of the buffer *)

Section Appends.

Lemma appended_nil self : appended self [] = self.
Proof. destruct self; unfold appended; simpl. by rewrite app_nil_r. Qed.

Lemma appended_app self l1 l2 :
  appended (appended self l1) l2 = appended self (l1 ++ l2).
Proof. unfold appended; simpl. by rewrite app_assoc. Qed.

Lemma appends_ret {A} (a : A) : appends (ret a) a [].
Proof. intros self. unfold ret. by rewrite appended_nil. Qed.

Lemma appends_append line : appends (append line) tt [line].
Proof. by intros self. Qed.

Lemma appends_bind {A B} (m : M A) (k : A -> M B) a b l1 l2 :
  appends m a l1 -> appends (k a) b l2 -> appends (bind m k) b (l1 ++ l2).
Proof.
  intros Hm Hk self. unfold bind. rewrite Hm, Hk. by rewrite appended_app.
Qed.

Lemma appends_eq {A} (m : M A) a l l' :
  appends m a l -> l = l' -> appends m a l'.
Proof. by intros H <-. Qed.

Lemma appends_for_each {A} (body : A -> M unit) (f : A -> list string) l :
  (forall x, appends (body x) tt (f x)) ->
  appends (for_each l body) tt (concat (map f l)).
Proof.
  intros Hbody. induction l as [|x l IH]; simpl.
  - apply appends_ret.
  - eapply appends_bind; [apply Hbody | apply IH].
Qed.

End Appends.

(** ** Facts about the string primitives *)

Section Strings.

Lemma split_not_nil sep s : Py.split sep s <> [].
Proof.
  destruct s as [|c s]; simpl; [done|].
  destruct (Ascii.eqb c sep); [done|].
  by destruct (Py.split sep s).
Qed.

Lemma string_eqb_spec (a b : string) :
  String.eqb a b = bool_decide (a = b).
Proof.
  destruct (String.eqb_spec a b) as [->|Hne].
  - by rewrite bool_decide_eq_true_2.
  - by rewrite bool_decide_eq_false_2.
Qed.

Lemma lstrip_all_space s : Py.all_space s = true -> Py.lstrip s = "".
Proof.
  induction s as [|c s IH]; simpl; [done|].
  intros [Hc Hs]%andb_true_iff. rewrite Hc. by apply IH.
Qed.

Lemma strip_all_space s : Py.all_space s = true -> Py.strip s = "".
Proof. intros H. unfold Py.strip. by rewrite lstrip_all_space. Qed.

(** What [lstrip] returns is empty or starts with a character that is
    not white space. *)
Lemma lstrip_head s :
  Py.lstrip s = "" \/
  exists c r, Py.lstrip s = String c r /\ Py.isspace c = false.
Proof.
  induction s as [|c s IH]; simpl; [by left|].
  destruct (Py.isspace c) eqn:Hc; [done|]. right. by exists c, s.
Qed.

Lemma rstrip_head c r :
  Py.isspace c = false -> exists r', Py.rstrip (String c r) = String c r'.
Proof.
  intros Hc. simpl. rewrite Hc. destruct (Py.rstrip r); eauto.
Qed.

Lemma strip_head s :
  Py.strip s = "" \/
  exists c r, Py.strip s = String c r /\ Py.isspace c = false.
Proof.
  unfold Py.strip. destruct (lstrip_head s) as [->|(c & r & -> & Hc)].
  - by left.
  - right. destruct (rstrip_head c r Hc) as [r' ->]. by exists c, r'.
Qed.

Lemma strip_keeps_head c r :
  Py.isspace c = false -> exists r', Py.strip (String c r) = String c r'.
Proof.
  intros Hc. unfold Py.strip. simpl Py.lstrip. rewrite Hc.
  by apply rstrip_head.
Qed.

Lemma split_head sep c r :
  Ascii.eqb c sep = false ->
  exists w ws, Py.split sep (String c r) = String c w :: ws.
Proof.
  intros Hc. simpl. rewrite Hc. destruct (Py.split sep r); eauto.
Qed.

Lemma isspace_LF c : Ascii.eqb c Py.LF = true -> Py.isspace c = true.
Proof. by intros ->%Ascii.eqb_eq. Qed.

(** The first trimmed line of a value is not empty, unless the value is
    white space only, and then it is the only line. *)
Lemma trimmed_lines_head value :
  trimmed_lines value = [""] \/
  exists c r ls, trimmed_lines value = String c r :: ls.
Proof.
  unfold trimmed_lines.
  destruct (strip_head value) as [->|(c & r & -> & Hc)]; [by left|].
  right.
  assert (Ascii.eqb c Py.LF = false) as Hsep.
  { destruct (Ascii.eqb c Py.LF) eqn:E; [|done].
    apply isspace_LF in E. congruence. }
  destruct (split_head Py.LF c r Hsep) as (w & ws & ->).
  destruct (strip_keeps_head c w Hc) as [r' Hr'].
  exists c, r', (map Py.strip ws). simpl. by rewrite Hr'.
Qed.

End Strings.

(** The primitives on sample strings. *)

Example strip_example :
  Py.strip ("  a b " +:+ Py.nl) = "a b" /\ Py.strip " " = "".
Proof. split; reflexivity. Qed.

Example split_example :
  Py.split Py.LF ("a," +:+ Py.nl +:+ " b," +:+ Py.nl) = [ "a,"; " b,"; "" ]
  /\ Py.split Py.LF "" = [ "" ].
Proof. split; reflexivity. Qed.

Example lower_example : Py.lower "ElseIf" = "elseif".
Proof. reflexivity. Qed.

Example join_example : Py.join Py.nl [ "a"; ""; "b" ] = "a" +:+ Py.nl +:+ Py.nl +:+ "b".
Proof. reflexivity. Qed.

(** ** The visitor appends exactly [emitted] *)

Section Visitor.

Lemma Element_tree_ind (P : Element -> Prop) :
  (forall t a x cs, Forall P cs -> P (mkElement t a x cs)) ->
  forall e, P e.
Proof.
  intros step. fix IH 1. intros [t a x cs]. apply step.
  induction cs as [|c cs IHcs]; constructor; [apply IH | apply IHcs].
Qed.

Lemma continuation_lines_concat (l : list string) :
  concat (map (fun line =>
                 if continuation_line (Py.strip line)
                 then [set_line (Py.strip line)] else []) l)
  = map set_line (List.filter continuation_line (map Py.strip l)).
Proof.
  induction l as [|x l IH]; simpl; [done|].
  destruct (continuation_line (Py.strip x)); simpl; by rewrite IH.
Qed.

Lemma process_let_appends element :
  appends (process_let element) tt (let_lines element).
Proof.
  unfold process_let, let_lines, trimmed_lines, index_first, index_last.
  destruct (Py.contains Py.LF (get element "value" "")).
  - pose proof (split_not_nil Py.LF (Py.strip (get element "value" ""))) as Hne.
    destruct (Py.split Py.LF (Py.strip (get element "value" "")))
      as [|l0 ls]; [done|].
    change (map Py.strip (l0 :: ls)) with (Py.strip <$> (l0 :: ls)).
    rewrite fmap_last.
    destruct (last (l0 :: ls)) as [ll|] eqn:Hl; [|by apply last_None in Hl].
    eapply appends_eq.
    + eapply appends_bind; [|eapply appends_bind; apply appends_append].
      eapply appends_bind; [apply appends_ret|].
      eapply appends_bind; [apply appends_append|].
      eapply appends_bind.
      * apply (appends_for_each _
          (fun line => if continuation_line (Py.strip line)
                       then [set_line (Py.strip line)] else [])).
        intros x. unfold continuation_line.
        destruct (Py.truthy (Py.strip x) && negb (String.eqb (Py.strip x) "]"));
          [apply appends_append | apply appends_ret].
      * eapply appends_bind; [apply appends_ret|].
        instantiate (1 := if String.eqb (Py.strip ll) "]"
                          then [set_closing_bracket] else []).
        destruct (String.eqb (Py.strip ll) "]");
          [apply appends_append | apply appends_ret].
    + unfold slice_from_1. simpl. rewrite drop_0.
      rewrite continuation_lines_concat. do 3 f_equal.
      rewrite string_eqb_spec.
      destruct (decide (Some (Py.strip ll) = Some "]")) as [Heq|Hne'].
      * rewrite bool_decide_eq_true_2; [done | congruence].
      * rewrite bool_decide_eq_false_2; [done | congruence].
  - eapply appends_eq.
    + eapply appends_bind; [apply appends_append|].
      eapply appends_bind; apply appends_append.
    + done.
Qed.

Lemma stripped_text_appends element :
  appends (stripped_text element) (text_field element) [].
Proof.
  unfold stripped_text, text_field, text_truthy, strip_method.
  destruct (text element) as [[|c s]|]; apply appends_ret.
Qed.

Lemma process_children_appends (cs : list Element) :
  Forall (fun c => appends (_process_element c) tt (emitted c)) cs ->
  appends (for_each cs _process_element) tt (emitted_all cs).
Proof.
  induction 1 as [|c cs Hc Hcs IH].
  - apply appends_ret.
  - apply (appends_bind (_process_element c) _ tt tt _ _ Hc IH).
Qed.

Lemma emitted_unfold element :
  emitted element
  = opening element
    ++ (if recurses element then emitted_all (children element) else [])
    ++ closing element.
Proof. by destruct element. Qed.

(** The visitor never raises, leaves [indent_level] alone and appends
    exactly the lines [emitted element]. *)
Lemma process_element_appends element :
  appends (_process_element element) tt (emitted element).
Proof.
  induction element as [t a x cs IH] using Element_tree_ind.
  apply process_children_appends in IH.
  rewrite emitted_unfold.
  unfold opening, closing, recurses, rule_of.
  set (e := mkElement t a x cs) in *.
  change (_process_element e) with
    (let tag := Py.lower (tag e) in
     if String.eqb tag "poml" then for_each (children e) _process_element
     else if String.eqb tag "let" then process_let e
     else if String.eqb tag "task" then
       task_text <- stripped_text e ;;
       append ("input(" +:+ task_text +:+ ");")
     else if String.eqb tag "for" then
       append "loop(for each);" ;;;
       for_each (children e) _process_element ;;;
       append "lend();"
     else if String.eqb tag "if" then
       append (branch_line (get e "condition" "")) ;;;
       append "path();" ;;;
       for_each (children e) _process_element
     else if String.eqb tag "elseif" then
       append (path_condition_line (get e "condition" "")) ;;;
       for_each (children e) _process_element
     else if String.eqb tag "else" then
       append "path(else);" ;;;
       for_each (children e) _process_element ;;;
       append "bend();"
     else if String.eqb tag "p" then
       text <- stripped_text e ;;
       append ("output(" +:+ text +:+ ");")
     else for_each (children e) _process_element).
  cbv zeta. change (children e) with cs in *.
  repeat match goal with
         | |- context [String.eqb ?u ?v] => destruct (String.eqb u v)
         end;
    (eapply appends_eq;
     [ repeat (first [ apply process_let_appends
                     | apply IH
                     | apply appends_append
                     | apply stripped_text_appends
                     | eapply appends_bind ])
     | simpl; rewrite ?app_nil_r; try done ]).
Qed.

Lemma process_element_run element self :
  _process_element element self = (Ok tt, appended self (emitted element)).
Proof. apply process_element_appends. Qed.

Lemma rule_of_let element :
  Py.lower (tag element) = "let" -> rule_of element = RLet.
Proof. unfold rule_of. by intros ->. Qed.



Lemma rule_of_for element :
  Py.lower (tag element) = "for" -> rule_of element = RFor.
Proof. unfold rule_of. by intros ->. Qed.

Lemma rule_of_if element :
  Py.lower (tag element) = "if" -> rule_of element = RIf.
Proof. unfold rule_of. by intros ->. Qed.

Lemma rule_of_else element :
  Py.lower (tag element) = "else" -> rule_of element = RElse.
Proof. unfold rule_of. by intros ->. Qed.

Lemma emitted_let element :
  Py.lower (tag element) = "let" -> emitted element = let_lines element.
Proof.
  intros H%rule_of_let. rewrite emitted_unfold.
  unfold opening, closing, recurses. rewrite H. by rewrite !app_nil_r.
Qed.

End Visitor.

(** ** What [parse] computes *)

Section Parse.

Context {datetime : Type} (strftime : datetime -> string -> string)
        (fromstring : string -> Element + string).

Lemma parse_well_formed now content filename root self :
  fromstring content = inl root ->
  parse datetime strftime fromstring now content filename self
  = (Ok (Py.join Py.nl (converted_lines datetime strftime now filename root)),
     {| vfc_lines := converted_lines datetime strftime now filename root;
        indent_level := 0%Z |}).
Proof.
  intros Hroot.
  unfold parse, bind, reset, _add_header, extend, try_except_ParseError,
    ET_fromstring, _add_footer, ret, converted_lines.
  rewrite Hroot. rewrite process_element_run.
  unfold appended. cbn [vfc_lines indent_level]. by rewrite <- !app_assoc.
Qed.

Lemma parse_not_well_formed now content filename diagnostic self :
  fromstring content = inr diagnostic ->
  parse datetime strftime fromstring now content filename self
  = (Raise (ValueError ("Invalid POML XML: " +:+ diagnostic)),
     {| vfc_lines := header (strftime now "%I:%M:%S %p - %d:%b:%Y") filename;
        indent_level := 0%Z |}).
Proof.
  intros Herr.
  unfold parse, bind, reset, _add_header, extend, try_except_ParseError,
    ET_fromstring, raise.
  by rewrite Herr.
Qed.

End Parse.

(** ** The [let] rule *)

Lemma first_nonempty_trimmed value :
  first_nonempty (trimmed_lines value) = hd "" (trimmed_lines value).
Proof.
  unfold first_nonempty.
  destruct (trimmed_lines_head value) as [->|(c & r & ls & ->)]; done.
Qed.

Lemma let_lines_run element self :
  Py.lower (tag element) = "let" ->
  _process_element element self = (Ok tt, appended self (let_lines element)).
Proof. intros H. by rewrite process_element_run, emitted_let. Qed.

(** C5: a [let] whose value has no line feed appends the line
    [set(name="<name>" value="<value>");], then [end();], then an empty
    line, and nothing else. *)
Theorem let_single_line (element : Element) (self : POMLToVFCParser) :
  Py.lower (tag element) = "let" ->
  Py.contains Py.LF (get element "value" "") = false ->
  _process_element element self
  = (Ok tt,
     appended self
       [ "set(name=" +:+ Py.dq +:+ get element "name" "" +:+ Py.dq
         +:+ " value=" +:+ Py.dq +:+ get element "value" "" +:+ Py.dq +:+ ");";
         "end();";
         "" ]).
Proof.
  intros Htag Hnl. rewrite let_lines_run by done.
  unfold let_lines. by rewrite Hnl.
Qed.

Lemma let_single_line_witness :
  _process_element let_x_1 __init__
  = (Ok tt,
     {| vfc_lines :=
          [ "set(name=" +:+ Py.dq +:+ "x" +:+ Py.dq +:+ " value=" +:+ Py.dq
            +:+ "1" +:+ Py.dq +:+ ");";
            "end();";
            "" ];
        indent_level := 0%Z |}).
Proof.
  exact (let_single_line let_x_1 __init__ eq_refl eq_refl).
Defined.

(** C1: a [let] whose value has a line feed appends, for the trimmed lines
    of the trimmed value: [set(name="<name>" value="<first non-empty line>");],
    one [set(<line>);] for each later line that is neither empty nor a lone
    closing bracket, the closing-bracket line exactly when the last trimmed
    line is a lone closing bracket, then [end();] and an empty line.  For
    the trimmed lines [a,], [b,], closing bracket this is
    [set(name=".." value="a,");], [set(b,);], the closing-bracket line,
    [end();] and the empty line. *)
Theorem let_multi_line (element : Element) (self : POMLToVFCParser) :
  Py.lower (tag element) = "let" ->
  Py.contains Py.LF (get element "value" "") = true ->
  let name := get element "name" "" in
  let lines := map Py.strip (Py.split Py.LF (Py.strip (get element "value" ""))) in
  _process_element element self
  = (Ok tt,
     appended self
       ([ "set(name=" +:+ Py.dq +:+ name +:+ Py.dq +:+ " value=" +:+ Py.dq
          +:+ first_nonempty lines +:+ Py.dq +:+ ");" ]
        ++ map (fun line => "set(" +:+ line +:+ ");")
             (List.filter
                (fun line => Py.truthy line && negb (String.eqb line "]"))
                (tail lines))
        ++ (if decide (last lines = Some "]") then [set_closing_bracket] else [])
        ++ [ "end();"; "" ]))
  /\ (lines = [ "a,"; "b,"; "]" ] ->
      _process_element element self
      = (Ok tt,
         appended self
           [ "set(name=" +:+ Py.dq +:+ name +:+ Py.dq +:+ " value=" +:+ Py.dq
             +:+ "a," +:+ Py.dq +:+ ");";
             "set(b,);";
             set_closing_bracket;
             "end();";
             "" ])).
Proof.
  intros Htag Hnl name lines.
  assert (_process_element element self
          = (Ok tt,
             appended self
               ([ set_name_value name (first_nonempty lines) ]
                ++ map set_line (List.filter continuation_line (tail lines))
                ++ (if decide (last lines = Some "]")
                    then [set_closing_bracket] else [])
                ++ [ "end();"; "" ]))) as Hrun.
  { rewrite let_lines_run by done. unfold let_lines. rewrite Hnl.
    subst lines name. fold (trimmed_lines (get element "value" "")).
    rewrite first_nonempty_trimmed. by rewrite <- !app_assoc. }
  split; [exact Hrun|].
  intros Hlines. rewrite Hrun, Hlines. reflexivity.
Qed.

Lemma let_multi_line_witness :
  _process_element let_a_b_bracket __init__
  = (Ok tt,
     {| vfc_lines :=
          [ "set(name=" +:+ Py.dq +:+ "xs" +:+ Py.dq +:+ " value=" +:+ Py.dq
            +:+ "a," +:+ Py.dq +:+ ");";
            "set(b,);";
            "set(]" +:+ Py.dq +:+ ");";
            "end();";
            "" ];
        indent_level := 0%Z |}).
Proof.
  exact (proj2 (let_multi_line let_a_b_bracket __init__ eq_refl eq_refl) eq_refl).
Defined.

(** C9: in the multi-line case, when the last trimmed line is a lone
    closing bracket, the line appended just before [end();] is the literal
    [set(]] + double quote + [);], whatever the name and the other lines
    are; it holds exactly one double quote. *)
Theorem let_closing_line_literal (element : Element) (self : POMLToVFCParser) :
  Py.lower (tag element) = "let" ->
  Py.contains Py.LF (get element "value" "") = true ->
  last (map Py.strip (Py.split Py.LF (Py.strip (get element "value" ""))))
  = Some "]" ->
  let lines := map Py.strip (Py.split Py.LF (Py.strip (get element "value" ""))) in
  _process_element element self
  = (Ok tt,
     appended self
       (set_name_value (get element "name" "") (hd "" lines)
        :: map set_line (List.filter continuation_line (tail lines))
        ++ [ String "s" (String "e" (String "t" (String "(" (String "]"
              (String (ascii_of_nat 34) (String ")" (String ";" EmptyString)))))));
             "end();";
             "" ]))
  /\ Py.count (ascii_of_nat 34) set_closing_bracket = 1.
Proof.
  intros Htag Hnl Hlast lines. split; [|reflexivity].
  rewrite let_lines_run by done. unfold let_lines. rewrite Hnl.
  fold (trimmed_lines (get element "value" "")) in Hlast, lines.
  fold lines. rewrite decide_True by done.
  rewrite <- !app_assoc. reflexivity.
Qed.

Lemma let_closing_line_literal_witness :
  nth_error
    (vfc_lines (snd (_process_element let_a_b_bracket __init__))) 2
  = Some ("set(]" +:+ Py.dq +:+ ");").
Proof.
  pose proof (let_closing_line_literal let_a_b_bracket __init__
                eq_refl eq_refl eq_refl) as [Hrun _].
  rewrite Hrun. reflexivity.
Defined.

(** C10: a [let] whose value has a line feed and is white space only does
    not raise; it appends [set(name="<name>" value="");], [end();] and an
    empty line, and nothing else. *)
Theorem let_blank_multi_line (element : Element) (self : POMLToVFCParser) :
  Py.lower (tag element) = "let" ->
  Py.contains Py.LF (get element "value" "") = true ->
  Py.all_space (get element "value" "") = true ->
  _process_element element self
  = (Ok tt,
     appended self
       [ "set(name=" +:+ Py.dq +:+ get element "name" "" +:+ Py.dq
         +:+ " value=" +:+ Py.dq +:+ Py.dq +:+ ");";
         "end();";
         "" ]).
Proof.
  intros Htag Hnl Hblank. rewrite let_lines_run by done.
  unfold let_lines, trimmed_lines. rewrite Hnl.
  rewrite (strip_all_space _ Hblank). reflexivity.
Qed.

Lemma let_blank_multi_line_witness :
  _process_element let_blank_value __init__
  = (Ok tt,
     {| vfc_lines :=
          [ "set(name=" +:+ Py.dq +:+ "v" +:+ Py.dq +:+ " value=" +:+ Py.dq
            +:+ Py.dq +:+ ");";
            "end();";
            "" ];
        indent_level := 0%Z |}).
Proof.
  exact (let_blank_multi_line let_blank_value __init__ eq_refl eq_refl eq_refl).
Defined.

(** ** Missing attributes and missing text *)






(** ** The contract of [parse] *)

Section ParseContract.

Context {datetime : Type} (strftime : datetime -> string -> string)
        (fromstring : string -> Element + string).

(** C8: the result of [parse], and the converter object it leaves, depend
    on the clock reading, the input text and the file name only, not on the
    converter object it starts from; so a call that follows an earlier
    conversion on the same object returns what a new object returns. *)
Theorem parse_ignores_earlier_state
        (now : datetime) (content filename : string) :
  (forall self1 self2,
      parse datetime strftime fromstring now content filename self1
      = parse datetime strftime fromstring now content filename self2)
  /\ (forall now' content' filename' self,
        fst (parse datetime strftime fromstring now content filename
               (snd (parse datetime strftime fromstring
                       now' content' filename' self)))
        = fst (parse datetime strftime fromstring now content filename
                 __init__)).
Proof.
  assert (forall self1 self2,
             parse datetime strftime fromstring now content filename self1
             = parse datetime strftime fromstring now content filename self2)
    as Hsame.
  { intros self1 self2. destruct (fromstring content) as [root|d] eqn:Hp.
    - by rewrite !(parse_well_formed _ _ _ _ _ root).
    - by rewrite !(parse_not_well_formed _ _ _ _ _ d). }
  split; [exact Hsame|].
  intros now' content' filename' self. by rewrite (Hsame _ __init__).
Qed.

End ParseContract.

(** ** Counting block tokens *)

Lemma count_tokens_app keyword l1 l2 :
  count_tokens keyword (l1 ++ l2)
  = count_tokens keyword l1 + count_tokens keyword l2.
Proof. unfold count_tokens. by rewrite List.filter_app, length_app. Qed.

Lemma count_tokens_cons keyword l ls :
  count_tokens keyword (l :: ls)
  = (if is_token keyword l then 1 else 0) + count_tokens keyword ls.
Proof. unfold count_tokens. simpl. by destruct (is_token keyword l). Qed.

Lemma count_tokens_set_lines keyword ls :
  block_keyword keyword -> count_tokens keyword (map set_line ls) = 0.
Proof.
  intros [->|[->|[->| ->]]]; induction ls as [|l ls IH]; simpl; try done;
    by rewrite count_tokens_cons, IH.
Qed.

Lemma count_tokens_let_lines keyword element :
  block_keyword keyword -> count_tokens keyword (let_lines element) = 0.
Proof.
  intros Hk. unfold let_lines.
  rewrite count_tokens_app.
  assert (count_tokens keyword ["end();"; ""] = 0) as ->
    by (by destruct Hk as [->|[->|[->| ->]]]).
  destruct (Py.contains Py.LF (get element "value" "")).
  - rewrite !count_tokens_app, count_tokens_set_lines by done.
    destruct (decide _); by destruct Hk as [->|[->|[->| ->]]].
  - by destruct Hk as [->|[->|[->| ->]]].
Qed.

(** The lines that an element appends itself hold one [keyword] token when
    its rule is the rule of the keyword, and none otherwise. *)
Lemma count_tokens_own keyword element :
  block_keyword keyword ->
  count_tokens keyword (opening element)
  + count_tokens keyword (closing element)
  = if decide (rule_of element = keyword_rule keyword) then 1 else 0.
Proof.
  intros Hk. unfold opening, closing.
  destruct (rule_of element) eqn:Hr;
    rewrite ?count_tokens_let_lines by done;
    by destruct Hk as [->|[->|[->| ->]]].
Qed.

Lemma count_tokens_concat keyword (ls : list (list string)) :
  count_tokens keyword (concat ls) = sum_list (map (count_tokens keyword) ls).
Proof.
  induction ls as [|l ls IH]; simpl; [done|].
  by rewrite count_tokens_app, IH.
Qed.

Lemma visited_unfold r element :
  visited r element
  = (if decide (rule_of element = r) then 1 else 0)
    + (if recurses element then visited_all r (children element) else 0).
Proof. by destruct element. Qed.

(** The number of [keyword] tokens among the lines of an element is the
    number of visited elements handled by the rule of the keyword. *)
Lemma count_tokens_emitted keyword element :
  block_keyword keyword ->
  count_tokens keyword (emitted element)
  = visited (keyword_rule keyword) element.
Proof.
  intros Hk. induction element as [t a x cs IH] using Element_tree_ind.
  rewrite emitted_unfold, visited_unfold, !count_tokens_app.
  rewrite <- (count_tokens_own keyword _ Hk).
  set (e := mkElement t a x cs).
  change (children e) with cs.
  assert (count_tokens keyword (emitted_all cs)
          = visited_all (keyword_rule keyword) cs) as Hcs.
  { unfold emitted_all, visited_all. rewrite count_tokens_concat.
    induction IH as [|c cs' Hc _ IHcs]; simpl; [done|].
    by rewrite Hc, IHcs. }
  destruct (recurses e); [rewrite Hcs|]; unfold count_tokens; simpl; lia.
Qed.

Lemma count_tokens_emitted_all keyword elements :
  block_keyword keyword ->
  count_tokens keyword (emitted_all elements)
  = visited_all (keyword_rule keyword) elements.
Proof.
  intros Hk. unfold emitted_all, visited_all. rewrite count_tokens_concat.
  induction elements as [|c cs IH]; simpl; [done|].
  by rewrite count_tokens_emitted, IH.
Qed.

Lemma rule_of_for_inv element :
  rule_of element = RFor -> Py.lower (tag element) = "for".
Proof.
  unfold rule_of.
  repeat match goal with
         | |- context [String.eqb ?u ?v] =>
             destruct (String.eqb_spec u v); try done
         end.
Qed.

Lemma rule_of_if_inv element :
  rule_of element = RIf -> Py.lower (tag element) = "if".
Proof.
  unfold rule_of.
  repeat match goal with
         | |- context [String.eqb ?u ?v] =>
             destruct (String.eqb_spec u v); try done
         end.
Qed.

Lemma rule_of_else_inv element :
  rule_of element = RElse -> Py.lower (tag element) = "else".
Proof.
  unfold rule_of.
  repeat match goal with
         | |- context [String.eqb ?u ?v] =>
             destruct (String.eqb_spec u v); try done
         end.
Qed.

Lemma contains_tag_unfold name element :
  contains_tag name element
  = String.eqb (Py.lower (tag element)) name
    || existsb (contains_tag name) (children element).
Proof. by destruct element. Qed.

(** A document without an element tagged [name] has no visited element
    whose rule [r] is selected by that tag only. *)
Lemma visited_absent name r element :
  (forall e, rule_of e = r -> Py.lower (tag e) = name) ->
  contains_tag name element = false ->
  visited r element = 0.
Proof.
  intros Hr. induction element as [t a x cs IH] using Element_tree_ind.
  rewrite contains_tag_unfold, visited_unfold.
  set (e := mkElement t a x cs). change (children e) with cs.
  intros [Htag Hcs]%orb_false_iff.
  rewrite decide_False.
  2:{ intros H%Hr. apply String.eqb_neq in Htag. done. }
  assert (visited_all r cs = 0) as ->.
  { unfold visited_all. induction IH as [|c cs' Hc _ IHcs]; simpl; [done|].
    simpl in Hcs. apply orb_false_iff in Hcs as [Hc' Hcs'].
    by rewrite Hc, IHcs. }
  by destruct (recurses e).
Qed.

Lemma count_tokens_header keyword time_str filename :
  block_keyword keyword -> count_tokens keyword (header time_str filename) = 0.
Proof. by intros [->|[->|[->| ->]]]. Qed.

Lemma count_tokens_footer keyword :
  block_keyword keyword -> count_tokens keyword footer = 0.
Proof. by intros [->|[->|[->| ->]]]. Qed.

(** ** Documents without loops and conditionals *)

Section BlockTokens.

Context {datetime : Type} (strftime : datetime -> string -> string)
        (fromstring : string -> Element + string).

Lemma count_tokens_converted keyword now filename root :
  block_keyword keyword ->
  count_tokens keyword (converted_lines datetime strftime now filename root)
  = visited (keyword_rule keyword) root.
Proof.
  intros Hk. unfold converted_lines.
  rewrite !count_tokens_app, count_tokens_header, count_tokens_footer by done.
  rewrite count_tokens_emitted by done. lia.
Qed.

(** C3, as amended: for a well-formed document without [for], [if] and
    [else] elements the buffer that [parse] joins has no [loop], [lend],
    [branch] or [bend] statement line.  Without [for] and [if] elements
    alone it has no [loop], [lend] and [branch] line, and as many [bend]
    lines as the walk visits [else] elements. *)
Theorem no_block_tokens_without_block_elements
        (now : datetime) (content filename : string) (self : POMLToVFCParser)
        (root : Element) :
  fromstring content = inl root ->
  contains_tag "for" root = false ->
  contains_tag "if" root = false ->
  let run := parse datetime strftime fromstring now content filename self in
  fst run = Ok (Py.join Py.nl (vfc_lines (snd run)))
  /\ count_tokens "loop" (vfc_lines (snd run)) = 0
  /\ count_tokens "lend" (vfc_lines (snd run)) = 0
  /\ count_tokens "branch" (vfc_lines (snd run)) = 0
  /\ count_tokens "bend" (vfc_lines (snd run)) = visited RElse root
  /\ (contains_tag "else" root = false ->
      count_tokens "bend" (vfc_lines (snd run)) = 0).
Proof.
  intros Hroot Hfor Hif run. subst run.
  rewrite (parse_well_formed _ _ _ _ _ root) by done. simpl fst. simpl snd.
  cbn [vfc_lines].
  assert (block_keyword "loop") as Hloop by (left; done).
  assert (block_keyword "lend") as Hlend by (right; left; done).
  assert (block_keyword "branch") as Hbranch by (right; right; left; done).
  assert (block_keyword "bend") as Hbend by (right; right; right; done).
  rewrite !count_tokens_converted by done.
  change (keyword_rule "loop") with RFor.
  change (keyword_rule "lend") with RFor.
  change (keyword_rule "branch") with RIf.
  change (keyword_rule "bend") with RElse.
  rewrite (visited_absent "for" RFor root rule_of_for_inv Hfor).
  rewrite (visited_absent "if" RIf root rule_of_if_inv Hif).
  repeat split; try done.
  intros Helse. apply (visited_absent "else" RElse root rule_of_else_inv Helse).
Qed.

End BlockTokens.

Lemma no_block_tokens_without_block_elements_witness :
  count_tokens "loop" (sample_conversion task_and_p) = 0
  /\ count_tokens "lend" (sample_conversion task_and_p) = 0
  /\ count_tokens "branch" (sample_conversion task_and_p) = 0
  /\ count_tokens "bend" (sample_conversion task_and_p) = 0.
Proof.
  pose proof (no_block_tokens_without_block_elements
                sample_strftime (parser_of task_and_p) tt
                "" "converted.py.vfc" __init__ task_and_p
                eq_refl eq_refl eq_refl)
    as (_ & Hloop & Hlend & Hbranch & _ & Hbend).
  exact (conj Hloop (conj Hlend (conj Hbranch (Hbend eq_refl)))).
Defined.

(** C3, as stated, fails: the document [<poml><else/></poml>] has no [for]
    and no [if] element, and its conversion has a [bend();] line. *)
Lemma bend_without_for_and_if :
  contains_tag "for" else_only = false
  /\ contains_tag "if" else_only = false
  /\ sample_conversion else_only
     = header "01:13:23 PM - 15:Sep:2025" "converted.py.vfc"
       ++ [ "path(else);"; "bend();" ] ++ footer
  /\ count_tokens "bend" (sample_conversion else_only) = 1.
Proof. repeat split; reflexivity. Qed.

(** ** Where the lines of an element lie *)

Lemma emitted_all_app l1 l2 :
  emitted_all (l1 ++ l2) = emitted_all l1 ++ emitted_all l2.
Proof. unfold emitted_all. by rewrite map_app, concat_app. Qed.

Lemma emitted_all_cons c cs :
  emitted_all (c :: cs) = emitted c ++ emitted_all cs.
Proof. done. Qed.

Lemma emitted_all_middle cs i c :
  cs !! i = Some c ->
  emitted_all cs
  = emitted_all (take i cs) ++ emitted c ++ emitted_all (drop (S i) cs).
Proof.
  intros Hc. rewrite <- (take_drop_middle cs i c Hc) at 1.
  by rewrite emitted_all_app, emitted_all_cons.
Qed.

Lemma emitted_all_take_le cs i j :
  i <= j ->
  length (emitted_all (take i cs)) <= length (emitted_all (take j cs)).
Proof.
  intros Hij. rewrite <- (take_drop i (take j cs)).
  rewrite take_take, Nat.min_l by done.
  rewrite emitted_all_app, length_app. lia.
Qed.

Lemma emitted_all_take_lt cs i j c :
  cs !! i = Some c -> i < j ->
  length (emitted_all (take i cs)) + length (emitted c)
  <= length (emitted_all (take j cs)).
Proof.
  intros Hc Hij. etrans; [|apply (emitted_all_take_le cs (S i) j); lia].
  rewrite (take_S_r cs i c Hc), emitted_all_app, length_app.
  rewrite emitted_all_cons, length_app. lia.
Qed.

Lemma length_emitted element :
  recurses element = true ->
  length (emitted element)
  = length (opening element) + length (emitted_all (children element))
    + length (closing element).
Proof.
  intros Hrec. rewrite emitted_unfold, Hrec, !length_app. lia.
Qed.

Lemma child_offset_le element i j :
  i <= j -> child_offset element i <= child_offset element j.
Proof.
  intros Hij. unfold child_offset.
  pose proof (emitted_all_take_le (children element) i j Hij). lia.
Qed.

Lemma child_offset_lt element i j c :
  children element !! i = Some c -> i < j ->
  child_offset element i + length (emitted c) <= child_offset element j.
Proof.
  intros Hc Hij. unfold child_offset.
  pose proof (emitted_all_take_lt (children element) i j c Hc Hij). lia.
Qed.

Lemma child_offset_end element i c :
  recurses element = true ->
  children element !! i = Some c ->
  child_offset element i + length (emitted c) + length (closing element)
  <= length (emitted element).
Proof.
  intros Hrec Hc. rewrite (length_emitted element) by done.
  rewrite (emitted_all_middle _ i c Hc), !length_app.
  unfold child_offset. lia.
Qed.

Lemma span_cons_inv element i path b n :
  span element (i :: path) = Some (b, n) ->
  recurses element = true
  /\ exists c a,
      children element !! i = Some c
      /\ span c path = Some (a, n)
      /\ b = child_offset element i + a.
Proof.
  simpl. destruct (recurses element); [|done].
  destruct (children element !! i) as [c|]; [|done].
  destruct (span c path) as [[a n']|] eqn:Hs; [|done].
  intros [= <- <-]. split; [done|]. by exists c, a.
Qed.

Lemma span_cons element i path c a n :
  recurses element = true ->
  children element !! i = Some c ->
  span c path = Some (a, n) ->
  span element (i :: path) = Some (child_offset element i + a, n).
Proof. intros Hrec Hc Hs. simpl. by rewrite Hrec, Hc, Hs. Qed.

(** The lines of a visited element lie within the lines of the root. *)
Lemma span_within element path a n :
  span element path = Some (a, n) -> a + n <= length (emitted element).
Proof.
  revert element a. induction path as [|i path IH]; intros element a.
  - simpl. intros [= <- <-]. lia.
  - intros (Hrec & c & a' & Hc & Hs & ->)%span_cons_inv.
    apply IH in Hs. pose proof (child_offset_end element i c Hrec Hc). lia.
Qed.

(** The lines of a visited descendant lie between the lines that the
    element appends before and after its children. *)
Lemma span_inside element i path a n :
  span element (i :: path) = Some (a, n) ->
  length (opening element) <= a
  /\ a + n + length (closing element) <= length (emitted element).
Proof.
  intros (Hrec & c & a' & Hc & Hs & ->)%span_cons_inv.
  apply span_within in Hs.
  pose proof (child_offset_end element i c Hrec Hc).
  unfold child_offset in *. lia.
Qed.

(** The lines at a span are the lines of the element at that path. *)
Lemma span_segment element path a n :
  span element path = Some (a, n) ->
  exists c before after,
    subelement element path = Some c
    /\ emitted element = before ++ emitted c ++ after
    /\ length before = a
    /\ length (emitted c) = n.
Proof.
  revert element a. induction path as [|i path IH]; intros element a.
  - simpl. intros [= <- <-]. exists element, [], []. by rewrite app_nil_r.
  - intros (Hrec & c & a' & Hc & Hs & ->)%span_cons_inv.
    destruct (IH _ _ Hs) as (d & before & after & Hd & Hem & Hlen & Hn).
    exists d, (opening element ++ emitted_all (take i (children element))
               ++ before),
      (after ++ emitted_all (drop (S i) (children element))
       ++ closing element).
    split; [by simpl; rewrite Hc|]. split; [|split; [|done]].
    + rewrite emitted_unfold, Hrec, (emitted_all_middle _ i c Hc), Hem.
      by rewrite <- !app_assoc.
    + rewrite !length_app. unfold child_offset. lia.
Qed.

Lemma span_app element path q a n c :
  span element path = Some (a, n) ->
  subelement element path = Some c ->
  span element (path ++ q)
  = match span c q with
    | Some (b, m) => Some (a + b, m)
    | None => None
    end.
Proof.
  revert element a. induction path as [|i path IH]; intros element a.
  - simpl. intros [= <- <-] [= ->]. by destruct (span c q) as [[b m]|].
  - intros (Hrec & d & a' & Hd & Hs & ->)%span_cons_inv. simpl.
    rewrite Hd, Hrec. intros Hc. rewrite (IH _ _ Hs Hc).
    destruct (span c q) as [[b m]|]; [|done].
    f_equal. f_equal. unfold child_offset. lia.
Qed.

(** The lines of a visited element and the lines from a visited element
    through a later visited sibling do not interleave. *)
Lemma span_no_interleaving element path r i j a n b m b' m' :
  i <= j ->
  span element path = Some (a, n) ->
  span element (r ++ [i]) = Some (b, m) ->
  span element (r ++ [j]) = Some (b', m') ->
  no_interleaving a (a + n) b (b' + m').
Proof.
  intros Hij. revert element r a b b'.
  induction path as [|k path IH]; intros element r a b b' Hp Hi Hj.
  - simpl in Hp. injection Hp as <- <-.
    apply span_within in Hj. right; right; left. lia.
  - apply span_cons_inv in Hp as (Hrec & ck & a1 & Hck & Hsk & ->).
    pose proof (span_within _ _ _ _ Hsk) as Hk.
    destruct r as [|k' r]; simpl app in Hi, Hj.
    + apply span_cons_inv in Hi as (_ & ci & ? & Hci & [= <- <-] & ->).
      apply span_cons_inv in Hj as (_ & cj & ? & Hcj & [= <- <-] & ->).
      rewrite !Nat.add_0_r.
      destruct (decide (k < i)) as [Hki|Hki].
      { left. pose proof (child_offset_lt element k i ck Hck Hki). lia. }
      destruct (decide (j < k)) as [Hjk|Hjk].
      { right; left.
        pose proof (child_offset_lt element j k cj Hcj Hjk). lia. }
      right; right; right. split.
      * pose proof (child_offset_le element i k). lia.
      * destruct (decide (k = j)) as [->|Hne].
        -- assert (ck = cj) as -> by congruence. lia.
        -- pose proof (child_offset_lt element k j ck Hck). lia.
    + apply span_cons_inv in Hi as (_ & ci & b1 & Hci & Hsi & ->).
      apply span_cons_inv in Hj as (_ & cj & b1' & Hcj & Hsj & ->).
      assert (ci = cj) as -> by congruence.
      pose proof (span_within _ _ _ _ Hsi) as Hi'.
      pose proof (span_within _ _ _ _ Hsj) as Hj'.
      destruct (decide (k = k')) as [->|Hne].
      * assert (ck = cj) as -> by congruence.
        specialize (IH _ _ _ _ _ Hsk Hsi Hsj).
        unfold no_interleaving in *. lia.
      * destruct (decide (k < k')) as [Hlt|Hge].
        -- left. pose proof (child_offset_lt element k k' ck Hck Hlt). lia.
        -- right; left.
           pose proof (child_offset_lt element k' k cj Hcj). lia.
Qed.

Lemma for_each_children_run (cs : list Element) self :
  for_each cs _process_element self = (Ok tt, appended self (emitted_all cs)).
Proof.
  apply (appends_for_each _process_element emitted cs).
  apply process_element_appends.
Qed.

Lemma visits_prefix element path q :
  visits element (path ++ q) -> visits element path.
Proof.
  unfold visits. revert element.
  induction path as [|i path IH]; intros element; [by eexists|].
  intros [[b m] (Hrec & c & a & Hc & Hs & ->)%span_cons_inv].
  destruct (IH c (mk_is_Some _ _ Hs)) as [[a' n'] Hs'].
  exists (child_offset element i + a', n'). by apply (span_cons _ _ _ c).
Qed.

(** A whole conversion: a loop around a conditional. *)
Example conversion_example :
  sample_conversion for_if_else
  = header "01:13:23 PM - 15:Sep:2025" "converted.py.vfc"
    ++ [ "loop(for each);";
         branch_line "c";
         "path();";
         "output(a);";
         "path(else);";
         "output(b);";
         "bend();";
         "lend();" ]
    ++ footer.
Proof. reflexivity. Qed.

(** ** Loops *)

(** C2, as amended: for every [for] element that the walk visits, the
    buffer holds [loop(for each);], then the lines of the children of the
    element, then [lend();]; the lines of every visited descendant lie
    strictly between the two tokens; the run from [loop] to [lend] does
    not interleave with the lines of any visited element or of any run of
    visited siblings (an [if] through its [else]); and the buffer has one
    [loop] and one [lend] token for each visited [for] element. *)
Theorem for_loop_lend_paired
        (root element : Element) (path : list nat) (a n : nat)
        (self : POMLToVFCParser) :
  subelement root path = Some element ->
  span root path = Some (a, n) ->
  Py.lower (tag element) = "for" ->
  (exists before body after,
      _process_element root self
      = (Ok tt,
         appended self
           (before ++ [ "loop(for each);" ] ++ body ++ [ "lend();" ] ++ after))
      /\ (forall self',
            for_each (children element) _process_element self'
            = (Ok tt, appended self' body))
      /\ length before = a
      /\ length body + 2 = n)
  /\ (forall q b m,
        q <> [] ->
        span root (path ++ q) = Some (b, m) ->
        a < b /\ b + m < a + n)
  /\ (forall r i j b m b' m',
        i <= j ->
        span root (r ++ [i]) = Some (b, m) ->
        span root (r ++ [j]) = Some (b', m') ->
        no_interleaving a (a + n) b (b' + m'))
  /\ count_tokens "loop" (vfc_lines (snd (_process_element root __init__)))
     = visited RFor root
  /\ count_tokens "lend" (vfc_lines (snd (_process_element root __init__)))
     = visited RFor root.
Proof.
  intros Hsub Hspan Htag.
  pose proof (rule_of_for _ Htag) as Hrule.
  assert (emitted element
          = [ "loop(for each);" ] ++ emitted_all (children element)
            ++ [ "lend();" ]) as Hfor.
  { rewrite emitted_unfold. unfold opening, closing, recurses.
    by rewrite Hrule. }
  split; [|split; [|split; [|split]]].
  - destruct (span_segment _ _ _ _ Hspan)
      as (c & before & after & Hc & Hem & Hlen & Hn).
    assert (c = element) as -> by congruence.
    exists before, (emitted_all (children element)), after.
    split; [|split; [|split; [done|]]].
    + rewrite process_element_run, Hem, Hfor. by rewrite <- !app_assoc.
    + intros self'. apply for_each_children_run.
    + rewrite <- Hn, Hfor, !length_app. simpl. lia.
  - intros q b m Hq. rewrite (span_app _ _ q _ _ _ Hspan Hsub).
    destruct q as [|k q]; [done|].
    destruct (span element (k :: q)) as [[b0 m0]|] eqn:Hs; [|done].
    intros [= <- <-]. apply span_inside in Hs.
    unfold opening, closing in Hs. rewrite Hrule in Hs. simpl in Hs.
    destruct (span_segment _ _ _ _ Hspan) as (c & _ & _ & Hc & _ & _ & Hn).
    assert (c = element) as -> by congruence. lia.
  - intros r i j b m b' m' Hij Hi Hj.
    by apply (span_no_interleaving root path r i j a n b m b' m').
  - rewrite process_element_run. simpl.
    apply (count_tokens_emitted "loop"). by left.
  - rewrite process_element_run. simpl.
    apply (count_tokens_emitted "lend"). by right; left.
Qed.

Lemma for_loop_lend_paired_witness :
  exists before body after,
    _process_element for_if_else __init__
    = (Ok tt,
       appended __init__
         (before ++ [ "loop(for each);" ] ++ body ++ [ "lend();" ] ++ after))
    /\ length before = 0
    /\ length body + 2 = 8.
Proof.
  destruct (for_loop_lend_paired for_if_else
              (mkElement "for" {[ "each" := "x"; "in" := "xs" ]} None
                 [ mkElement "if" {[ "condition" := "c" ]} None
                     [ mkElement "p" ∅ (Some "a") [] ];
                   mkElement "else" ∅ None
                     [ mkElement "p" ∅ (Some "b") [] ] ])
              [0] 0 8 __init__ eq_refl eq_refl eq_refl)
    as [(before & body & after & Hrun & _ & Ha & Hn) _].
  exists before, body, after. exact (conj Hrun (conj Ha Hn)).
Defined.

(** C2, as stated, fails: in [<poml><p>items<for ..>..</for></p></poml>]
    the [for] element lies under a [p] element, whose children the walk
    does not visit; the conversion has no [loop] and no [lend] token. *)
Lemma for_inside_p_without_loop :
  (Py.lower ∘ tag) <$> subelement for_inside_p [0; 0] = Some "for"
  /\ sample_conversion for_inside_p
     = header "01:13:23 PM - 15:Sep:2025" "converted.py.vfc"
       ++ [ "output(items);" ] ++ footer
  /\ count_tokens "loop" (sample_conversion for_inside_p) = 0
  /\ count_tokens "lend" (sample_conversion for_inside_p) = 0.
Proof. repeat split; reflexivity. Qed.

(** ** Conditionals *)

(** C4, as amended: for every [if] element that the walk visits and that
    has a later sibling [else], the buffer holds the [branch] line and
    [path();], the lines of the children of the [if], the lines of the
    siblings in between, [path(else);], the lines of the children of the
    [else], and then [bend();].  The [bend] tokens before the lines of the
    children of the [else] are those of the [else] elements visited under
    the [if] and among the siblings in between, and no other; the buffer
    has one [bend] token for each visited [else] element. *)
Theorem if_else_bend
        (root parent if_element else_element : Element)
        (r : list nat) (i j : nat) (self : POMLToVFCParser) :
  subelement root r = Some parent ->
  visits root (r ++ [i]) ->
  children parent !! i = Some if_element ->
  children parent !! j = Some else_element ->
  i < j ->
  Py.lower (tag if_element) = "if" ->
  Py.lower (tag else_element) = "else" ->
  exists before then_lines between else_lines after,
    _process_element root self
    = (Ok tt,
       appended self
         (before
          ++ [ branch_line (get if_element "condition" ""); "path();" ]
          ++ then_lines ++ between
          ++ [ "path(else);" ] ++ else_lines ++ [ "bend();" ]
          ++ after))
    /\ (forall self',
          for_each (children if_element) _process_element self'
          = (Ok tt, appended self' then_lines))
    /\ (forall self',
          for_each (take (j - S i) (drop (S i) (children parent)))
            _process_element self'
          = (Ok tt, appended self' between))
    /\ (forall self',
          for_each (children else_element) _process_element self'
          = (Ok tt, appended self' else_lines))
    /\ count_tokens "bend"
         ([ branch_line (get if_element "condition" ""); "path();" ]
          ++ then_lines ++ between ++ [ "path(else);" ])
       = visited_all RElse (children if_element)
         + visited_all RElse (take (j - S i) (drop (S i) (children parent)))
    /\ count_tokens "bend" else_lines
       = visited_all RElse (children else_element)
    /\ count_tokens "bend" (vfc_lines (snd (_process_element root __init__)))
       = visited RElse root.
Proof.
  intros Hparent Hvis Hif Helse Hij Htif Htelse.
  pose proof (rule_of_if _ Htif) as Hrif.
  pose proof (rule_of_else _ Htelse) as Hrelse.
  assert (block_keyword "bend") as Hbend by (right; right; right; done).
  destruct (visits_prefix _ _ _ Hvis) as [[a0 n0] Hspan].
  destruct (span_segment _ _ _ _ Hspan)
    as (c & pre & post & Hc & Hem & _ & _).
  assert (c = parent) as -> by congruence.
  assert (recurses parent = true) as Hrec.
  { destruct Hvis as [[b m] Hs].
    rewrite (span_app _ _ [i] _ _ _ Hspan Hparent) in Hs.
    destruct (span parent [i]) as [[b0 m0]|] eqn:Hs0; [|done].
    by apply span_cons_inv in Hs0 as [? _]. }
  set (between := take (j - S i) (drop (S i) (children parent))).
  assert (drop (S i) (children parent)
          = between ++ else_element
              :: drop (S (j - S i)) (drop (S i) (children parent))) as Hrest.
  { symmetry. apply take_drop_middle. rewrite lookup_drop.
    by replace (S i + (j - S i)) with j by lia. }
  assert (emitted if_element
          = [ branch_line (get if_element "condition" ""); "path();" ]
            ++ emitted_all (children if_element)) as Hemif.
  { rewrite emitted_unfold. unfold opening, closing, recurses.
    rewrite Hrif. by rewrite app_nil_r. }
  assert (emitted else_element
          = [ "path(else);" ] ++ emitted_all (children else_element)
            ++ [ "bend();" ]) as Hemelse.
  { rewrite emitted_unfold. unfold opening, closing, recurses.
    by rewrite Hrelse. }
  assert (emitted_all (children parent)
          = emitted_all (take i (children parent))
            ++ emitted if_element ++ emitted_all between
            ++ emitted else_element
            ++ emitted_all
                 (drop (S (j - S i)) (drop (S i) (children parent)))) as Hcs.
  { rewrite (emitted_all_middle _ i _ Hif). rewrite Hrest at 1.
    by rewrite emitted_all_app, emitted_all_cons. }
  exists (pre ++ opening parent ++ emitted_all (take i (children parent))),
    (emitted_all (children if_element)),
    (emitted_all between),
    (emitted_all (children else_element)),
    (emitted_all (drop (S (j - S i)) (drop (S i) (children parent)))
     ++ closing parent ++ post).
  split; [|split; [|split; [|split; [|split; [|split]]]]].
  - rewrite process_element_run, Hem.
    rewrite (emitted_unfold parent), Hrec.
    rewrite Hcs, Hemif, Hemelse.
    by rewrite <- !app_assoc.
  - intros self'. apply for_each_children_run.
  - intros self'. apply for_each_children_run.
  - intros self'. apply for_each_children_run.
  - rewrite !count_tokens_app, !count_tokens_emitted_all by done.
    change (keyword_rule "bend") with RElse.
    unfold count_tokens. simpl. lia.
  - by rewrite count_tokens_emitted_all.
  - rewrite process_element_run. simpl.
    by apply (count_tokens_emitted "bend").
Qed.

Lemma if_else_bend_witness :
  exists before then_lines between else_lines after,
    _process_element for_if_else __init__
    = (Ok tt,
       appended __init__
         (before
          ++ [ branch_line "c"; "path();" ]
          ++ then_lines ++ between
          ++ [ "path(else);" ] ++ else_lines ++ [ "bend();" ]
          ++ after))
    /\ count_tokens "bend"
         ([ branch_line "c"; "path();" ]
          ++ then_lines ++ between ++ [ "path(else);" ])
       = 0.
Proof.
  destruct (if_else_bend for_if_else
              (mkElement "for" {[ "each" := "x"; "in" := "xs" ]} None
                 [ mkElement "if" {[ "condition" := "c" ]} None
                     [ mkElement "p" ∅ (Some "a") [] ];
                   mkElement "else" ∅ None
                     [ mkElement "p" ∅ (Some "b") [] ] ])
              (mkElement "if" {[ "condition" := "c" ]} None
                 [ mkElement "p" ∅ (Some "a") [] ])
              (mkElement "else" ∅ None [ mkElement "p" ∅ (Some "b") [] ])
              [0] 0 1 __init__
              eq_refl (mk_is_Some _ _ eq_refl) eq_refl eq_refl
              (le_n 1) eq_refl eq_refl)
    as (before & then_lines & between & else_lines & after
        & Hrun & _ & _ & _ & Hcount & _).
  exists before, then_lines, between, else_lines, after.
  exact (conj Hrun Hcount).
Defined.

(** C4, as stated, fails: in [<poml><p><if ../><else/></p></poml>] the
    [if] element is followed by a sibling [else], both under a [p] element,
    whose children the walk does not visit; the conversion has no [bend]
    token. *)
Lemma if_else_inside_p_without_bend :
  (Py.lower ∘ tag) <$> subelement if_else_inside_p [0; 0] = Some "if"
  /\ (Py.lower ∘ tag) <$> subelement if_else_inside_p [0; 1] = Some "else"
  /\ sample_conversion if_else_inside_p
     = header "01:13:23 PM - 15:Sep:2025" "converted.py.vfc"
       ++ [ "output();" ] ++ footer
  /\ count_tokens "bend" (sample_conversion if_else_inside_p) = 0.
Proof. repeat split; reflexivity. Qed.

(** ** Calls under the recursion limit *)

Lemma depth_of_unfold walks element :
  depth_of walks element
  = S (if walks element
       then max_list (map (depth_of walks) (children element))
       else 0).
Proof. by destruct element. Qed.

Lemma for_each_cons {A} (x : A) (l : list A) (body : A -> M unit) self :
  for_each (x :: l) body self
  = match body x self with
    | (Ok _, self') => for_each l body self'
    | (Raise e, self') => (Raise e, self')
    end.
Proof. reflexivity. Qed.

Section CallWithin.

(** A visitor whose body appends [opening], walks the children when
    [walks] says so, and appends [closing]; [lines] are the lines of a
    whole walk. *)
Variables (opening closing : Element -> list string)
          (walks : Element -> bool)
          (lines : Element -> list string)
          (body : (Element -> M unit) -> Element -> M unit).

Hypothesis lines_unfold :
  forall e,
    lines e
    = opening e
      ++ (if walks e then concat (map lines (children e)) else [])
      ++ closing e.

Hypothesis body_shape :
  forall recur e self,
    body recur e self
    = (extend (opening e) ;;;
       (if walks e then for_each (children e) recur else ret tt) ;;;
       extend (closing e)) self.

Lemma for_each_within n (cs : list Element) :
  (forall e self,
      exists ls,
        call_within body n e self
        = (if decide (depth_of walks e <= n)
           then Ok tt else Raise RecursionError,
           appended self ls)
        /\ (depth_of walks e <= n -> ls = lines e)) ->
  forall self,
    exists ls,
      for_each cs (call_within body n) self
      = (if decide (max_list (map (depth_of walks) cs) <= n)
         then Ok tt else Raise RecursionError,
         appended self ls)
      /\ (max_list (map (depth_of walks) cs) <= n ->
          ls = concat (map lines cs)).
Proof.
  intros IH. induction cs as [|c cs IHcs]; intros self.
  - exists []. rewrite appended_nil. split; [|done].
    change (for_each [] (call_within body n) self) with (Ok tt, self).
    case_decide as Hfit; [done|]. simpl in Hfit. exfalso; lia.
  - rewrite for_each_cons. destruct (IH c self) as (lc & Hc & Hlc).
    rewrite Hc.
    assert (max_list (map (depth_of walks) (c :: cs))
            = Nat.max (depth_of walks c) (max_list (map (depth_of walks) cs)))
      as -> by reflexivity.
    destruct (decide (depth_of walks c <= n)) as [Hfit|Hdeep].
    + destruct (IHcs (appended self lc)) as (ls & Hcs & Hls).
      exists (lc ++ ls). rewrite Hcs, appended_app. split.
      * destruct (decide (max_list (map (depth_of walks) cs) <= n)) as [Hm|Hm];
          destruct (decide (Nat.max (depth_of walks c)
                              (max_list (map (depth_of walks) cs)) <= n))
            as [Hm'|Hm']; first [done | exfalso; lia].
      * intros Hmax. rewrite Hlc by done.
        rewrite Hls by (eapply Nat.max_lub_r, Hmax). done.
    + exists lc. split; [|intros ?; exfalso; lia].
      destruct (decide (Nat.max (depth_of walks c)
                          (max_list (map (depth_of walks) cs)) <= n));
        [exfalso; lia | done].
Qed.

(** A call under the limit returns normally exactly when the tree needs
    no more nested calls than are allowed; it then appends the lines of
    the whole walk; and also when it raises [RecursionError] it has only
    appended to the buffer. *)
Lemma call_within_outcome n :
  forall e self,
    exists ls,
      call_within body n e self
      = (if decide (depth_of walks e <= n)
         then Ok tt else Raise RecursionError,
         appended self ls)
      /\ (depth_of walks e <= n -> ls = lines e).
Proof.
  induction n as [|n IH]; intros e self.
  - exists []. simpl. unfold raise. rewrite appended_nil.
    rewrite depth_of_unfold. split; [|intros ?; exfalso; lia]. case_decide; [exfalso; lia | done].
  - simpl call_within. rewrite body_shape.
    rewrite depth_of_unfold, lines_unfold.
    unfold bind at 1. unfold extend at 1. fold (appended self (opening e)).
    destruct (walks e).
    + destruct (for_each_within n (children e) IH (appended self (opening e)))
        as (ls & Hcs & Hls).
      unfold bind at 1. rewrite Hcs.
      destruct (decide (max_list (map (depth_of walks) (children e)) <= n))
        as [Hfit|Hdeep].
      * exists (opening e ++ ls ++ closing e).
        unfold extend.
        fold (appended (appended (appended self (opening e)) ls) (closing e)).
        rewrite !appended_app. split; [|intros _; by rewrite Hls].
        case_decide; [done | exfalso; lia].
      * exists (opening e ++ ls).
        rewrite appended_app. split; [|intros ?; exfalso; lia]. case_decide; [exfalso; lia | done].
    + exists (opening e ++ [] ++ closing e).
      unfold bind, ret, extend.
      fold (appended (appended self (opening e)) (closing e)).
      rewrite appended_app. split; [|done]. case_decide; [done | exfalso; lia].
Qed.

End CallWithin.

Lemma bind_run {A B} (m : M A) (k : A -> M B) self :
  (bind m k) self
  = match m self with
    | (Ok a, self') => k a self'
    | (Raise e, self') => (Raise e, self')
    end.
Proof. reflexivity. Qed.

Lemma extend_nil self : extend [] self = (Ok tt, self).
Proof. unfold extend. destruct self. simpl. by rewrite app_nil_r. Qed.

Lemma then_extend_nil (m : M unit) self :
  (m ;;; extend []) self = m self.
Proof.
  rewrite bind_run. destruct (m self) as [[[]|e] self']; [|done].
  apply extend_nil.
Qed.

Lemma extend_nil_then {A} (m : M A) self :
  (extend [] ;;; m) self = m self.
Proof. rewrite bind_run. by rewrite extend_nil. Qed.

Lemma appends_run {A} (m : M A) a ls self :
  appends m a ls -> m self = (Ok a, appended self ls).
Proof. intros H. apply H. Qed.

(** The body of the visitor appends the opening lines of the rule, walks
    the children when the rule says so, and appends the closing lines. *)
Lemma visit_shape recur element self :
  visit recur element self
  = (extend (opening element) ;;;
     (if recurses element then for_each (children element) recur else ret tt) ;;;
     extend (closing element)) self.
Proof.
  unfold visit, opening, closing, recurses, rule_of. cbv zeta.
  repeat match goal with
         | |- context [String.eqb ?u ?v] => destruct (String.eqb u v)
         end.
  - rewrite extend_nil_then. by rewrite then_extend_nil.
  - rewrite (appends_run _ _ _ _ (process_let_appends element)).
    unfold bind, extend, ret, appended. simpl. by rewrite app_nil_r.
  - rewrite bind_run.
    rewrite (appends_run _ _ _ _ (stripped_text_appends element)).
    rewrite appended_nil.
    unfold bind, extend, ret, append. simpl. by rewrite app_nil_r.
  - reflexivity.
  - unfold bind, append, extend. simpl.
    rewrite <- app_assoc. simpl app.
    destruct (for_each _ _ _) as [[[]|e] [ls il]]; [|done].
    simpl. by rewrite app_nil_r.
  - unfold bind, append, extend. simpl.
    destruct (for_each _ _ _) as [[[]|e] [ls il]]; [|done].
    simpl. by rewrite app_nil_r.
  - reflexivity.
  - rewrite bind_run.
    rewrite (appends_run _ _ _ _ (stripped_text_appends element)).
    rewrite appended_nil.
    unfold bind, extend, ret, append. simpl. by rewrite app_nil_r.
  - rewrite extend_nil_then. by rewrite then_extend_nil.
Qed.

(** The visitor under the limit: it returns normally exactly when the
    tree is no deeper than the nested calls allowed, and then appends the
    lines of [emitted]; otherwise it raises [RecursionError]; in both
    cases it has only appended to the buffer. *)
Lemma process_element_within_outcome frames element self :
  exists ls,
    _process_element_within frames element self
    = (if decide (depth element <= frames)
       then Ok tt else Raise RecursionError,
       appended self ls)
    /\ (depth element <= frames -> ls = emitted element).
Proof.
  apply (call_within_outcome opening closing recurses emitted visit
           emitted_unfold visit_shape).
Qed.

Lemma process_element_within_fits frames element self :
  depth element <= frames ->
  _process_element_within frames element self
  = (Ok tt, appended self (emitted element)).
Proof.
  intros Hfit.
  destruct (process_element_within_outcome frames element self)
    as (ls & Hrun & Hls).
  rewrite Hrun, (Hls Hfit). by rewrite decide_True.
Qed.

Lemma process_element_within_deep frames element self :
  frames < depth element ->
  fst (_process_element_within frames element self) = Raise RecursionError.
Proof.
  intros Hdeep.
  destruct (process_element_within_outcome frames element self)
    as (ls & Hrun & _).
  rewrite Hrun. simpl. rewrite decide_False by lia. done.
Qed.

Lemma depth_nested n : depth (nested n) = S n.
Proof.
  induction n as [|n IH]; [reflexivity|].
  unfold depth in *. simpl nested. rewrite depth_of_unfold.
  change (recurses (mkElement "poml" ∅ None [nested n])) with true.
  simpl children. simpl map. simpl max_list. rewrite IH. lia.
Qed.

(** Within the limit the visitor under the limit is the visitor. *)
Lemma process_element_within_agrees frames element self :
  depth element <= frames ->
  _process_element_within frames element self = _process_element element self.
Proof.
  intros Hfit. rewrite process_element_within_fits by done.
  by rewrite process_element_run.
Qed.

(** ** The contract of [parse] under the recursion limit *)

Section ParseWithin.

Context {datetime : Type} (strftime : datetime -> string -> string)
        (et_fromstring : string -> Element + exn).

Lemma parse_within_fits frames now content filename root self :
  et_fromstring content = inl root ->
  depth root <= frames ->
  parse_within datetime strftime et_fromstring frames now content filename self
  = (Ok (Py.join Py.nl (converted_lines datetime strftime now filename root)),
     {| vfc_lines := converted_lines datetime strftime now filename root;
        indent_level := 0%Z |}).
Proof.
  intros Hroot Hfit.
  unfold parse_within, bind, reset, _add_header, extend,
    try_except_ParseError, ET_fromstring_raising, _add_footer, ret,
    converted_lines.
  rewrite Hroot. rewrite process_element_within_fits by done.
  unfold appended. cbn [vfc_lines indent_level]. by rewrite <- !app_assoc.
Qed.

(** A well-formed document that is nested more deeply than the
    interpreter allows makes [parse] raise [RecursionError]. *)
Lemma parse_within_deep frames now content filename root self :
  et_fromstring content = inl root ->
  frames < depth root ->
  fst (parse_within datetime strftime et_fromstring frames now content
         filename self)
  = Raise RecursionError.
Proof.
  intros Hroot Hdeep.
  unfold parse_within, bind, reset, _add_header, extend,
    try_except_ParseError, ET_fromstring_raising, _add_footer, ret.
  rewrite Hroot.
  match goal with
  | |- context [_process_element_within frames root ?s] =>
      destruct (process_element_within_outcome frames root s)
        as (ls & Hrun & _)
  end.
  rewrite Hrun. rewrite decide_False by lia. done.
Qed.

Lemma parse_within_parse_error frames now content filename diagnostic self :
  et_fromstring content = inr (ParseError diagnostic) ->
  fst (parse_within datetime strftime et_fromstring frames now content
         filename self)
  = Raise (ValueError ("Invalid POML XML: " +:+ diagnostic)).
Proof.
  intros Herr.
  unfold parse_within, bind, reset, _add_header, extend,
    try_except_ParseError, ET_fromstring_raising, raise.
  by rewrite Herr.
Qed.

(** An exception of [ET.fromstring] other than [ET.ParseError] passes
    through [parse] as it is. *)
Lemma parse_within_other_exception frames now content filename e self :
  et_fromstring content = inr e ->
  (forall diagnostic, e <> ParseError diagnostic) ->
  fst (parse_within datetime strftime et_fromstring frames now content
         filename self)
  = Raise e.
Proof.
  intros Herr Hother.
  unfold parse_within, bind, reset, _add_header, extend,
    try_except_ParseError, ET_fromstring_raising, raise.
  rewrite Herr. destruct e; try done. by destruct (Hother diagnostic).
Qed.

(** Within the limit, and on a text for which both parsers return the
    same root, [parse_within] is [parse]. *)
Lemma parse_within_agrees
      (fromstring : string -> Element + string)
      frames now content filename root self :
  et_fromstring content = inl root ->
  fromstring content = inl root ->
  depth root <= frames ->
  parse_within datetime strftime et_fromstring frames now content filename self
  = parse datetime strftime fromstring now content filename self.
Proof.
  intros Het Hfrom Hfit.
  rewrite (parse_within_fits _ _ _ _ root) by done.
  by rewrite (parse_well_formed _ _ _ _ _ root).
Qed.

(** C6, as amended: when [ET.fromstring] raises nothing but
    [ET.ParseError] on the text, and the document that it returns is no
    deeper than the nested calls of the visitor that the interpreter
    allows, [parse] raises exactly when the text is not well formed, the
    exception being the [ValueError] whose message ends with the
    diagnostic of the [ET.ParseError]; for a well-formed text it returns
    the buffer (header, lines of the root, footer) joined with line
    feeds. *)
Theorem parse_within_contract
        (frames : nat) (now : datetime) (content filename : string)
        (self : POMLToVFCParser) :
  (forall root, et_fromstring content = inl root -> depth root <= frames) ->
  (forall e, et_fromstring content = inr e ->
             exists diagnostic, e = ParseError diagnostic) ->
  ((exists e,
       fst (parse_within datetime strftime et_fromstring frames now content
              filename self) = Raise e)
   <-> ~ exists root, et_fromstring content = inl root)
  /\ (forall root,
        et_fromstring content = inl root ->
        fst (parse_within datetime strftime et_fromstring frames now content
               filename self)
        = Ok (Py.join Py.nl
                (header (strftime now "%I:%M:%S %p - %d:%b:%Y") filename
                 ++ emitted root ++ footer)))
  /\ (forall diagnostic,
        et_fromstring content = inr (ParseError diagnostic) ->
        fst (parse_within datetime strftime et_fromstring frames now content
               filename self)
        = Raise (ValueError ("Invalid POML XML: " +:+ diagnostic))).
Proof.
  intros Hdepth Honly. split; [|split].
  - destruct (et_fromstring content) as [root|e] eqn:Hp.
    + rewrite (parse_within_fits _ _ _ _ root) by (by auto). simpl. split.
      * by intros [e ?].
      * intros Hnot. destruct Hnot. by exists root.
    + destruct (Honly e eq_refl) as [d ->].
      rewrite (parse_within_parse_error _ _ _ _ d) by done. split.
      * by intros _ [root ?].
      * intros _. by eexists.
  - intros root Hp. by rewrite (parse_within_fits _ _ _ _ root) by auto.
  - intros d Hp. by rewrite (parse_within_parse_error _ _ _ _ d).
Qed.

End ParseWithin.

Lemma parse_within_contract_witness :
  fst (parse_within unit sample_strftime sample_parser 1000 tt
         "<poml/>" "converted.py.vfc" __init__)
  = Ok (Py.join Py.nl
          (header "01:13:23 PM - 15:Sep:2025" "converted.py.vfc" ++ footer))
  /\ fst (parse_within unit sample_strftime sample_parser 1000 tt
            "<poml" "converted.py.vfc" __init__)
     = Raise (ValueError
                ("Invalid POML XML: " +:+ "syntax error: line 1, column 0")).
Proof.
  split.
  - refine (proj1 (proj2 (parse_within_contract sample_strftime sample_parser
                            1000 tt "<poml/>" "converted.py.vfc" __init__
                            _ _))
              (mkElement "poml" ∅ None []) eq_refl).
    + intros root [= <-]. vm_compute. lia.
    + intros e [=].
  - refine (proj2 (proj2 (parse_within_contract sample_strftime sample_parser
                            1000 tt "<poml" "converted.py.vfc" __init__
                            _ _))
              "syntax error: line 1, column 0" eq_refl).
    + intros root [=].
    + intros e [= <-]. by eexists.
Defined.

(** C6, as stated, fails.  With the recursion limit of 1000 frames the
    interpreter allows fewer than 1000 nested calls of the visitor; the
    well-formed document of 1001 nested [poml] elements makes [parse]
    raise [RecursionError] instead of returning the text.  And an
    exception of [ET.fromstring] that is not [ET.ParseError] leaves
    [parse] as it is, not as the [ValueError] of the conversion. *)
Lemma deep_document_raises_recursion_error :
  raising_parser_of (nested 1000) "" = inl (nested 1000)
  /\ depth (nested 1000) = 1001
  /\ fst (parse_within unit sample_strftime (raising_parser_of (nested 1000))
            1000 tt "" "converted.py.vfc" __init__)
     = Raise RecursionError
  /\ fst (parse_within unit sample_strftime sample_parser 1000 tt
            "?" "converted.py.vfc" __init__)
     = Raise (UnicodeEncodeError "surrogates not allowed").
Proof.
  split; [reflexivity|]. split; [apply depth_nested|].
  split; [|reflexivity].
  apply parse_within_deep with (root := nested 1000); [reflexivity|].
  rewrite depth_nested. lia.
Qed.

(** ** Nesting of the loop tokens *)

Lemma depth_after_app opener closer depth l1 l2 :
  depth_after opener closer depth (l1 ++ l2)
  = match depth_after opener closer depth l1 with
    | Some depth' => depth_after opener closer depth' l2
    | None => None
    end.
Proof.
  revert depth. induction l1 as [|l l1 IH]; intros depth; simpl; [done|].
  destruct (is_token opener l); [apply IH|].
  destruct (is_token closer l); [|apply IH].
  destruct depth; [done | apply IH].
Qed.

Lemma depth_after_neutral opener closer depth lines :
  count_tokens opener lines = 0 ->
  count_tokens closer lines = 0 ->
  depth_after opener closer depth lines = Some depth.
Proof.
  induction lines as [|l lines IH]; simpl; [done|].
  rewrite !count_tokens_cons.
  destruct (is_token opener l); [done|].
  destruct (is_token closer l); [done|]. simpl. apply IH.
Qed.

Lemma own_lines_neutral element :
  rule_of element <> RFor ->
  count_tokens "loop" (opening element) = 0
  /\ count_tokens "lend" (opening element) = 0
  /\ count_tokens "loop" (closing element) = 0
  /\ count_tokens "lend" (closing element) = 0.
Proof.
  intros Hrule.
  pose proof (count_tokens_own "loop" element (or_introl eq_refl)) as Hloop.
  pose proof (count_tokens_own "lend" element
                (or_intror (or_introl eq_refl))) as Hlend.
  change (keyword_rule "loop") with RFor in Hloop.
  change (keyword_rule "lend") with RFor in Hlend.
  rewrite decide_False in Hloop, Hlend by done. lia.
Qed.

Lemma depth_after_emitted element depth :
  depth_after "loop" "lend" depth (emitted element) = Some depth.
Proof.
  revert depth.
  induction element as [t a x cs IH] using Element_tree_ind. intros depth.
  rewrite emitted_unfold.
  set (e := mkElement t a x cs). change (children e) with cs.
  assert (forall d, depth_after "loop" "lend" d (emitted_all cs) = Some d)
    as Hcs.
  { induction IH as [|c cs' Hc _ IHcs]; intros d; [done|].
    rewrite emitted_all_cons, depth_after_app, Hc. apply IHcs. }
  destruct (decide (rule_of e = RFor)) as [Hfor|Hother].
  - assert (opening e = [ "loop(for each);" ]) as ->
      by (unfold opening; by rewrite Hfor).
    assert (closing e = [ "lend();" ]) as ->
      by (unfold closing; by rewrite Hfor).
    assert (recurses e = true) as -> by (unfold recurses; by rewrite Hfor).
    rewrite depth_after_app.
    change (depth_after "loop" "lend" depth [ "loop(for each);" ])
      with (Some (S depth)).
    cbv beta iota. rewrite depth_after_app, Hcs. reflexivity.
  - destruct (own_lines_neutral e Hother) as (H1 & H2 & H3 & H4).
    rewrite depth_after_app.
    rewrite (depth_after_neutral _ _ _ (opening e)) by done.
    cbv beta iota. rewrite depth_after_app.
    destruct (recurses e); [rewrite Hcs|]; simpl;
      by rewrite (depth_after_neutral _ _ _ (closing e)).
Qed.

Section Nesting.

Context {datetime : Type} (strftime : datetime -> string -> string)
        (fromstring : string -> Element + string).

(** X1: in the buffer of every conversion that succeeds the [loop] and
    [lend] tokens are well nested: read from the top, every [lend] closes a
    [loop] that is still open, and at the end no [loop] is open. *)
Theorem loop_lend_well_nested
        (now : datetime) (content filename : string) (self : POMLToVFCParser)
        (root : Element) :
  fromstring content = inl root ->
  well_nested "loop" "lend"
    (vfc_lines
       (snd (parse datetime strftime fromstring now content filename self))).
Proof.
  intros Hroot. rewrite (parse_well_formed _ _ _ _ _ root) by done.
  cbn [snd vfc_lines]. unfold well_nested, converted_lines.
  rewrite depth_after_app.
  rewrite (depth_after_neutral _ _ _ (header _ _))
    by (apply count_tokens_header; first [by left | by right; left]).
  cbv beta iota. rewrite depth_after_app, depth_after_emitted.
  apply depth_after_neutral; apply count_tokens_footer;
    [by left | by right; left].
Qed.

End Nesting.

Lemma loop_lend_well_nested_witness :
  well_nested "loop" "lend" (sample_conversion for_if_else).
Proof.
  exact (loop_lend_well_nested sample_strftime (parser_of for_if_else) tt
           "" "converted.py.vfc" __init__ for_if_else eq_refl).
Defined.

(** ** How many block tokens a conversion has *)

Section BlockCounts.

Context {datetime : Type} (strftime : datetime -> string -> string)
        (fromstring : string -> Element + string).

(** X2: the buffer of a conversion that succeeds has one [loop] and one
    [lend] token for each [for] element that the walk visits, one [branch]
    token for each visited [if] element and one [bend] token for each
    visited [else] element; so [branch] and [bend] tokens are as many only
    when the walk visits as many [if] as [else] elements. *)
Theorem block_token_counts
        (now : datetime) (content filename : string) (self : POMLToVFCParser)
        (root : Element) :
  fromstring content = inl root ->
  let lines :=
    vfc_lines
      (snd (parse datetime strftime fromstring now content filename self)) in
  count_tokens "loop" lines = visited RFor root
  /\ count_tokens "lend" lines = visited RFor root
  /\ count_tokens "branch" lines = visited RIf root
  /\ count_tokens "bend" lines = visited RElse root
  /\ (count_tokens "branch" lines = count_tokens "bend" lines
      <-> visited RIf root = visited RElse root).
Proof.
  intros Hroot lines. subst lines.
  rewrite (parse_well_formed _ _ _ _ _ root) by done. cbn [snd vfc_lines].
  rewrite (count_tokens_converted strftime "loop") by (by left).
  rewrite (count_tokens_converted strftime "lend") by (by right; left).
  rewrite (count_tokens_converted strftime "branch")
    by (by right; right; left).
  rewrite (count_tokens_converted strftime "bend")
    by (by right; right; right).
  change (keyword_rule "loop") with RFor.
  change (keyword_rule "lend") with RFor.
  change (keyword_rule "branch") with RIf.
  change (keyword_rule "bend") with RElse.
  done.
Qed.

End BlockCounts.

Lemma block_token_counts_witness :
  count_tokens "branch" (sample_conversion else_only) = 0
  /\ count_tokens "bend" (sample_conversion else_only) = 1.
Proof.
  pose proof (block_token_counts sample_strftime (parser_of else_only) tt
                "" "converted.py.vfc" __init__ else_only eq_refl)
    as (_ & _ & Hbranch & Hbend & _).
  exact (conj Hbranch Hbend).
Defined.

(** ** What the visitor reads of a document *)

Lemma lower_char_idempotent c :
  Py.lower_char (Py.lower_char c) = Py.lower_char c.
Proof. destruct c as [[] [] [] [] [] [] [] []]; reflexivity. Qed.

Lemma lower_idempotent s : Py.lower (Py.lower s) = Py.lower s.
Proof.
  induction s as [|c s IH]; simpl; [done|].
  by rewrite lower_char_idempotent, IH.
Qed.

Lemma essence_unfold element :
  essence element
  = mkElement
      (Py.lower (tag element))
      (relevant_attributes (rule_of element) (attrib element))
      (match rule_of element with
       | RTask | RP => text element
       | _ => None
       end)
      (if recurses element then map essence (children element) else []).
Proof. by destruct element. Qed.

Lemma rule_of_essence element : rule_of (essence element) = rule_of element.
Proof.
  rewrite essence_unfold. unfold rule_of. simpl.
  by rewrite lower_idempotent.
Qed.

Lemma lookup_filter_key (P : string * string -> Prop)
      `{!forall kv, Decision (P kv)} (m : gmap string string) key :
  (forall v, P (key, v)) -> filter P m !! key = m !! key.
Proof.
  intros HP. rewrite map_lookup_filter.
  destruct (m !! key) as [v|]; simpl; [|done].
  by rewrite option_guard_True.
Qed.

Lemma get_essence element key :
  match rule_of element with
  | RLet => key = "name" \/ key = "value"
  | RIf | RElseif => key = "condition"
  | _ => False
  end ->
  get (essence element) key "" = get element key "".
Proof.
  intros Hkey. rewrite essence_unfold. unfold get. simpl.
  unfold relevant_attributes.
  destruct (rule_of element); try done;
    rewrite lookup_filter_key; try done; intros v; simpl; tauto.
Qed.

(** X3: the visitor reads of a document only the lower-cased tags, the
    [name] and [value] of [let] elements, the [condition] of [if] and
    [elseif] elements, the text of [task] and [p] elements, and the
    children of the elements that are not [let], [task] or [p]: the
    document reduced to these is converted to the same lines.  In
    particular the [each] and [in] attributes of a [for] element do not
    reach the output. *)
Theorem conversion_reads_essence (element : Element) (self : POMLToVFCParser) :
  _process_element (essence element) self = _process_element element self.
Proof.
  rewrite !process_element_run. f_equal. f_equal. clear self.
  induction element as [t a x cs IH] using Element_tree_ind.
  set (e := mkElement t a x cs) in *.
  rewrite (emitted_unfold e), (emitted_unfold (essence e)).
  assert (recurses (essence e) = recurses e) as Hrec
    by (unfold recurses; by rewrite rule_of_essence).
  assert (closing (essence e) = closing e) as ->
    by (unfold closing; by rewrite rule_of_essence).
  rewrite Hrec. f_equal; [|f_equal].
  - unfold opening, let_lines, text_field. rewrite rule_of_essence.
    destruct (rule_of e) eqn:Hrule; try done.
    + rewrite !get_essence by (rewrite Hrule; tauto). done.
    + rewrite (essence_unfold e), Hrule. done.
    + rewrite get_essence by (by rewrite Hrule). done.
    + rewrite get_essence by (by rewrite Hrule). done.
    + rewrite (essence_unfold e), Hrule. done.
  - destruct (recurses e) eqn:Hr; [|done].
    rewrite (essence_unfold e), Hr. simpl. change (children e) with cs.
    unfold emitted_all. f_equal.
    induction IH as [|c cs' Hc _ IHcs]; simpl; [done|].
    by rewrite Hc, IHcs.
Qed.

(** The sample document and its essence are converted alike. *)
Example essence_example :
  essence noisy_document
  = mkElement "poml" ∅ None
      [ mkElement "for" ∅ None
          [ mkElement "let" {[ "name" := "n"; "value" := "1" ]} None [] ] ]
  /\ vfc_lines (snd (_process_element noisy_document __init__))
     = [ "loop(for each);"; set_name_value "n" "1"; "end();"; ""; "lend();" ].
Proof. split; reflexivity. Qed.

(** ** Line feeds inside buffer entries *)

Lemma contains_app c a b :
  Py.contains c (a +:+ b) = Py.contains c a || Py.contains c b.
Proof.
  induction a as [|x a IH]; simpl; [done|]. by rewrite IH, orb_assoc.
Qed.

Lemma contains_lstrip c s :
  Py.contains c s = false -> Py.contains c (Py.lstrip s) = false.
Proof.
  induction s as [|x s IH]; simpl; [done|].
  intros [Hx Hs]%orb_false_iff.
  destruct (Py.isspace x); [by apply IH|]. simpl. by rewrite Hx, Hs.
Qed.

Lemma contains_rstrip c s :
  Py.contains c s = false -> Py.contains c (Py.rstrip s) = false.
Proof.
  induction s as [|x s IH]; simpl; [done|].
  intros [Hx Hs]%orb_false_iff. specialize (IH Hs).
  destruct (Py.rstrip s) as [|y r].
  - destruct (Py.isspace x); [done|]. simpl. by rewrite Hx.
  - simpl in *. by rewrite Hx, IH.
Qed.

Lemma contains_strip c s :
  Py.contains c s = false -> Py.contains c (Py.strip s) = false.
Proof. intros H. unfold Py.strip. by apply contains_rstrip, contains_lstrip. Qed.

Lemma split_pieces sep s :
  Forall (fun w => Py.contains sep w = false) (Py.split sep s).
Proof.
  induction s as [|c s IH]; simpl; [by constructor|].
  destruct (Ascii.eqb c sep) eqn:Hc; [by constructor|].
  destruct (Py.split sep s) as [|w ws].
  - constructor; [|done]. simpl. by rewrite Hc.
  - inversion IH as [|? ? Hw Hws]; subst. constructor; [|done].
    simpl. by rewrite Hc, Hw.
Qed.

Lemma trimmed_lines_single_line value :
  Forall (fun l => Py.contains Py.LF l = false) (trimmed_lines value).
Proof.
  unfold trimmed_lines. apply Forall_fmap.
  eapply Forall_impl; [apply split_pieces|].
  intros w Hw. by apply contains_strip.
Qed.

Lemma set_name_value_single_line name value :
  Py.contains Py.LF name = false ->
  Py.contains Py.LF value = false ->
  Py.contains Py.LF (set_name_value name value) = false.
Proof.
  intros Hn Hv. unfold set_name_value.
  rewrite !contains_app, Hn, Hv. reflexivity.
Qed.

Lemma set_line_single_line line :
  Py.contains Py.LF line = false ->
  Py.contains Py.LF (set_line line) = false.
Proof.
  intros Hl. unfold set_line. rewrite !contains_app, Hl. reflexivity.
Qed.

Lemma let_lines_single_line element :
  Py.contains Py.LF (get element "name" "") = false ->
  Forall (fun l => Py.contains Py.LF l = false) (let_lines element).
Proof.
  intros Hname. unfold let_lines.
  apply Forall_app. split; [|by repeat constructor].
  destruct (Py.contains Py.LF (get element "value" "")) eqn:Hvalue.
  - pose proof (trimmed_lines_single_line (get element "value" "")) as Hall.
    destruct (trimmed_lines (get element "value" "")) as [|l0 ls] eqn:Hls.
    + simpl. constructor; [by apply set_name_value_single_line|].
      by constructor.
    + inversion Hall as [|? ? Hl0 Hrest]; subst. simpl hd. simpl tail.
      apply Forall_app. split.
      { constructor; [|done]. by apply set_name_value_single_line. }
      apply Forall_app. split.
      * apply Forall_fmap. apply Forall_forall.
        intros l Hl. simpl. apply set_line_single_line.
        apply list_elem_of_In, List.filter_In in Hl as [Hl _].
        apply list_elem_of_In in Hl.
        by apply (proj1 (Forall_forall _ _) Hrest).
      * destruct (decide _); by repeat constructor.
  - constructor; [|done]. by apply set_name_value_single_line.
Qed.

(** X4: whatever the line feeds in its value are, a [let] element whose
    name has no line feed adds only entries without a line feed to the
    buffer: the value is cut at every line feed before it is copied. *)
Theorem let_entries_single_line (element : Element) (self : POMLToVFCParser) :
  Py.lower (tag element) = "let" ->
  Py.contains Py.LF (get element "name" "") = false ->
  exists lines,
    _process_element element self = (Ok tt, appended self lines)
    /\ Forall (fun line => Py.contains Py.LF line = false) lines.
Proof.
  intros Htag Hname. exists (let_lines element).
  split; [by apply let_lines_run | by apply let_lines_single_line].
Qed.

Lemma let_entries_single_line_witness :
  exists lines,
    _process_element let_a_b_bracket __init__ = (Ok tt, appended __init__ lines)
    /\ Forall (fun line => Py.contains Py.LF line = false) lines.
Proof.
  exact (let_entries_single_line let_a_b_bracket __init__ eq_refl eq_refl).
Defined.

Lemma line_safe_unfold element :
  line_safe element
  = match rule_of element with
    | RLet => negb (Py.contains Py.LF (get element "name" ""))
    | RTask | RP => negb (Py.contains Py.LF (text_field element))
    | RIf | RElseif => negb (Py.contains Py.LF (get element "condition" ""))
    | _ => true
    end
    && (if recurses element
        then forallb line_safe (children element)
        else true).
Proof. by destruct element. Qed.

Lemma line_safe_emitted element :
  line_safe element = true ->
  Forall (fun l => Py.contains Py.LF l = false) (emitted element).
Proof.
  induction element as [t a x cs IH] using Element_tree_ind.
  set (e := mkElement t a x cs) in *.
  rewrite line_safe_unfold, emitted_unfold. change (children e) with cs.
  intros [Hown Hcs]%andb_true_iff.
  apply Forall_app. split; [|apply Forall_app; split].
  - unfold opening. destruct (rule_of e); try by repeat constructor.
    + apply let_lines_single_line. by apply negb_true_iff.
    + apply negb_true_iff in Hown. repeat constructor.
      rewrite !contains_app, Hown. reflexivity.
    + apply negb_true_iff in Hown. repeat constructor.
      unfold branch_line. rewrite !contains_app, Hown. reflexivity.
    + apply negb_true_iff in Hown. repeat constructor.
      unfold path_condition_line. rewrite !contains_app, Hown. reflexivity.
    + apply negb_true_iff in Hown. repeat constructor.
      rewrite !contains_app, Hown. reflexivity.
  - destruct (recurses e); [|done].
    unfold emitted_all. apply Forall_concat, Forall_fmap.
    induction IH as [|c cs' Hc _ IHcs]; [done|].
    simpl in Hcs. apply andb_true_iff in Hcs as [Hc' Hcs'].
    constructor; [by apply Hc | by apply IHcs].
  - unfold closing. destruct (rule_of e); by repeat constructor.
Qed.

(** ** The text that [parse] returns, cut into lines again *)

Lemma split_single_line x :
  Py.contains Py.LF x = false -> Py.split Py.LF x = [x].
Proof.
  induction x as [|c x IH]; simpl; [done|].
  intros [Hc Hx]%orb_false_iff. rewrite Hc, (IH Hx). done.
Qed.

Lemma split_line_then x rest :
  Py.contains Py.LF x = false ->
  Py.split Py.LF (x +:+ Py.nl +:+ rest) = x :: Py.split Py.LF rest.
Proof.
  induction x as [|c x IH]; simpl; [done|].
  intros [Hc Hx]%orb_false_iff. rewrite Hc, (IH Hx). done.
Qed.

Lemma split_join lines :
  lines <> [] ->
  Forall (fun l => Py.contains Py.LF l = false) lines ->
  Py.split Py.LF (Py.join Py.nl lines) = lines.
Proof.
  induction lines as [|x lines IH]; [done|]. intros _ Hall.
  inversion Hall as [|? ? Hx Hrest]; subst.
  destruct lines as [|y lines].
  - simpl. by apply split_single_line.
  - change (Py.join Py.nl (x :: y :: lines))
      with (x +:+ Py.nl +:+ Py.join Py.nl (y :: lines)).
    rewrite split_line_then by done. f_equal. by apply IH.
Qed.

Section RoundTrip.

Context {datetime : Type} (strftime : datetime -> string -> string)
        (fromstring : string -> Element + string).

(** X5: when the file name, the formatted time, the names and conditions
    that the visitor copies and the texts of the visited [task] and [p]
    elements have no line feed, the text that [parse] returns, cut at its
    line feeds, is the buffer again: every statement is one line of the
    output, whatever the line feeds in the values of [let] elements are. *)
Theorem parse_text_lines
        (now : datetime) (content filename : string) (self : POMLToVFCParser)
        (root : Element) :
  fromstring content = inl root ->
  line_safe root = true ->
  Py.contains Py.LF filename = false ->
  Py.contains Py.LF (strftime now "%I:%M:%S %p - %d:%b:%Y") = false ->
  exists text,
    fst (parse datetime strftime fromstring now content filename self)
    = Ok text
    /\ Py.split Py.LF text
       = vfc_lines
           (snd (parse datetime strftime fromstring now content filename self))
    /\ length (Py.split Py.LF text)
       = 16 + length (vfc_lines (snd (_process_element root __init__))).
Proof.
  intros Hroot Hsafe Hname Htime.
  rewrite (parse_well_formed _ _ _ _ _ root) by done.
  cbn [fst snd vfc_lines]. eexists. split; [done|].
  assert (Py.split Py.LF
            (Py.join Py.nl (converted_lines datetime strftime now filename root))
          = converted_lines datetime strftime now filename root) as ->.
  { apply split_join; [done|]. unfold converted_lines.
    apply Forall_app. split; [|apply Forall_app; split].
    - unfold header.
      repeat (apply Forall_cons; split); try apply Forall_nil;
        rewrite ?contains_app, ?Hname, ?Htime; reflexivity.
    - by apply line_safe_emitted.
    - by repeat constructor. }
  split; [done|].
  rewrite process_element_run. unfold converted_lines.
  rewrite !length_app. simpl. lia.
Qed.

End RoundTrip.

Lemma parse_text_lines_witness :
  exists text,
    fst (parse unit sample_strftime (parser_of multi_line_document) tt
           "" "converted.py.vfc" __init__)
    = Ok text
    /\ Py.split Py.LF text = sample_conversion multi_line_document.
Proof.
  destruct (parse_text_lines sample_strftime (parser_of multi_line_document)
              tt "" "converted.py.vfc" __init__ multi_line_document
              eq_refl eq_refl eq_refl eq_refl)
    as (text & Htext & Hsplit & _).
  exists text. exact (conj Htext Hsplit).
Defined.

(** ** The frame of a conversion *)

Section Frame.

Context {datetime : Type} (strftime : datetime -> string -> string)
        (fromstring : string -> Element + string).

(** X6: any two conversions that succeed, of whatever documents, at
    whatever times and under whatever file names, agree on the first three
    lines of the buffer (the banner) and on its last ten lines (the
    footer); the fourth line carries the file name of the call. *)
Theorem conversions_share_frame
        (now1 now2 : datetime) (content1 content2 filename1 filename2 : string)
        (self1 self2 : POMLToVFCParser) (root1 root2 : Element) :
  fromstring content1 = inl root1 ->
  fromstring content2 = inl root2 ->
  let lines1 :=
    vfc_lines
      (snd (parse datetime strftime fromstring now1 content1 filename1 self1)) in
  let lines2 :=
    vfc_lines
      (snd (parse datetime strftime fromstring now2 content2 filename2 self2)) in
  take 3 lines1 = take 3 lines2
  /\ drop (length lines1 - 10) lines1 = drop (length lines2 - 10) lines2
  /\ drop (length lines1 - 10) lines1 = footer
  /\ lines1 !! 3 = Some (";  File Name : " +:+ filename1)
  /\ 16 <= length lines1.
Proof.
  intros Hroot1 Hroot2 lines1 lines2. subst lines1 lines2.
  rewrite (parse_well_formed _ _ _ _ _ root1) by done.
  rewrite (parse_well_formed _ _ _ _ _ root2) by done.
  cbn [snd vfc_lines]. unfold converted_lines.
  assert (forall h body : list string,
             drop (length (h ++ body ++ footer) - 10) (h ++ body ++ footer)
             = footer) as Hfooter.
  { intros h body. rewrite app_assoc.
    replace (length ((h ++ body) ++ footer) - 10) with (length (h ++ body))
      by (rewrite (length_app (h ++ body)); simpl; lia).
    apply drop_app_length. }
  rewrite !Hfooter. repeat split; try done.
  rewrite !length_app. simpl. lia.
Qed.

(** X7: a document whose root has no children and is a [poml] element or
    an element with an unknown tag is converted to the header followed at
    once by the footer: sixteen lines, none of them from the visitor. *)
Theorem empty_document_conversion
        (now : datetime) (content filename : string) (self : POMLToVFCParser)
        (root : Element) :
  fromstring content = inl root ->
  children root = [] ->
  rule_of root = RPoml \/ rule_of root = ROther ->
  vfc_lines
    (snd (parse datetime strftime fromstring now content filename self))
  = header (strftime now "%I:%M:%S %p - %d:%b:%Y") filename ++ footer.
Proof.
  intros Hroot Hchildren Hrule.
  rewrite (parse_well_formed _ _ _ _ _ root) by done.
  cbn [snd vfc_lines]. unfold converted_lines.
  rewrite emitted_unfold, Hchildren.
  unfold opening, closing, recurses.
  by destruct Hrule as [-> | ->].
Qed.

End Frame.

Lemma conversions_share_frame_witness :
  take 3 (sample_conversion for_if_else) = take 3 (sample_conversion else_only)
  /\ drop (length (sample_conversion for_if_else) - 10)
       (sample_conversion for_if_else)
     = footer.
Proof.
  pose proof (conversions_share_frame sample_strftime
                (fun content =>
                   if String.eqb content "a" then inl for_if_else
                   else inl else_only)
                tt tt "a" "b" "converted.py.vfc" "converted.py.vfc"
                __init__ __init__ for_if_else else_only eq_refl eq_refl)
    as (Hbanner & _ & Hfooter & _).
  exact (conj Hbanner Hfooter).
Defined.

Lemma empty_document_conversion_witness :
  sample_conversion empty_document
  = header "01:13:23 PM - 15:Sep:2025" "converted.py.vfc" ++ footer.
Proof.
  exact (empty_document_conversion sample_strftime (parser_of empty_document)
           tt "" "converted.py.vfc" __init__ empty_document
           eq_refl eq_refl (or_introl eq_refl)).
Defined.

(** ** The visitor and the buffer *)

(** X8: the visitor only appends.  When the interpreter allows as many
    nested calls as the tree is deep, it returns normally, and the lines
    it appends are the same whatever the converter object holds and
    however many calls are allowed; when the tree is deeper it raises
    [RecursionError]; in both cases the entries that the buffer held are
    kept in their order and [indent_level] is as it was. *)
Theorem visitor_appends_within (element : Element) :
  exists lines,
    forall frames self,
      exists appended_lines,
        _process_element_within frames element self
        = (if decide (depth element <= frames)
           then Ok tt else Raise RecursionError,
           {| vfc_lines := vfc_lines self ++ appended_lines;
              indent_level := indent_level self |})
        /\ (depth element <= frames -> appended_lines = lines).
Proof.
  exists (emitted element). intros frames self.
  apply process_element_within_outcome.
Qed.

(** Two frames are enough for a loop around a paragraph, one is not. *)
Example visitor_within_example :
  _process_element_within 2
    (mkElement "for" ∅ None [ mkElement "p" ∅ (Some "a") [] ]) __init__
  = (Ok tt,
     {| vfc_lines := [ "loop(for each);"; "output(a);"; "lend();" ];
        indent_level := 0%Z |})
  /\ _process_element_within 1
       (mkElement "for" ∅ None [ mkElement "p" ∅ (Some "a") [] ]) __init__
     = (Raise RecursionError,
        {| vfc_lines := [ "loop(for each);" ]; indent_level := 0%Z |}).
Proof. split; reflexivity. Qed.

(** ** Converting a file *)

Section FileConversion.

Context {datetime : Type} (strftime : datetime -> string -> string)
        (et_fromstring : string -> Element + exn)
        {filesystem : Type}
        (path_exists : filesystem -> string -> bool)
        (read_file : filesystem -> string -> string + string)
        (write_file : filesystem -> string -> string
                      -> option string * filesystem)
        (splitext : string -> string * string)
        (basename : string -> string).

(** X9: [convert_poml_file] leaves the file system as it found it unless
    the input exists, is read, is well formed and is no deeper than the
    interpreter allows.  A missing input raises [FileNotFoundError]; a
    failed read raises [IOError]; an [ET.ParseError] becomes the
    [ValueError] of [parse], not an [IOError]; another exception of
    [ET.fromstring] and the [RecursionError] of a document that is too
    deep pass through.  Otherwise it writes once, to the path given or,
    without one, to the input path without its extension followed by
    [.py.vfc], the conversion whose header names the base name of that
    path, and returns the path or raises the [IOError] of the write. *)
Theorem convert_poml_file_outcomes
        (frames : nat) (now : datetime) (input_file : string)
        (output_file : option string) (fs : filesystem) :
  let run :=
    convert_poml_file datetime strftime et_fromstring filesystem path_exists
      read_file write_file splitext basename frames now input_file
      output_file fs in
  let out :=
    match output_file with
    | Some path => path
    | None => fst (splitext input_file) +:+ ".py.vfc"
    end in
  (path_exists fs input_file = false
   /\ run = (inl (FileNotFoundError ("Input file not found: " +:+ input_file)),
             fs))
  \/ (exists e,
        path_exists fs input_file = true
        /\ read_file fs input_file = inr e
        /\ run = (inl (IOError ("Error reading input file: " +:+ e)), fs))
  \/ (exists content diagnostic,
        path_exists fs input_file = true
        /\ read_file fs input_file = inl content
        /\ et_fromstring content = inr (ParseError diagnostic)
        /\ run = (inl (Uncaught
                         (ValueError ("Invalid POML XML: " +:+ diagnostic))),
                  fs))
  \/ (exists content e,
        path_exists fs input_file = true
        /\ read_file fs input_file = inl content
        /\ et_fromstring content = inr e
        /\ (forall diagnostic, e <> ParseError diagnostic)
        /\ run = (inl (Uncaught e), fs))
  \/ (exists content root,
        path_exists fs input_file = true
        /\ read_file fs input_file = inl content
        /\ et_fromstring content = inl root
        /\ frames < depth root
        /\ run = (inl (Uncaught RecursionError), fs))
  \/ (exists content root,
        path_exists fs input_file = true
        /\ read_file fs input_file = inl content
        /\ et_fromstring content = inl root
        /\ depth root <= frames
        /\ snd run
           = snd (write_file fs out
                    (Py.join Py.nl
                       (header (strftime now "%I:%M:%S %p - %d:%b:%Y")
                          (basename out)
                        ++ emitted root ++ footer)))
        /\ match fst (write_file fs out
                        (Py.join Py.nl
                           (header (strftime now "%I:%M:%S %p - %d:%b:%Y")
                              (basename out)
                            ++ emitted root ++ footer))) with
           | None => fst run = inr out
           | Some e =>
               fst run = inl (IOError ("Error writing output file: " +:+ e))
           end).
Proof.
  intros run out. subst run. unfold convert_poml_file. cbv zeta.
  fold out.
  destruct (path_exists fs input_file) eqn:Hexists; simpl negb; cbv iota.
  2:{ left. done. }
  right. destruct (read_file fs input_file) as [content|e] eqn:Hread.
  2:{ left. by exists e. }
  right. destruct (et_fromstring content) as [root|e] eqn:Hparse.
  - right; right.
    destruct (decide (depth root <= frames)) as [Hfit|Hdeep].
    + right. exists content, root.
      rewrite (parse_within_fits _ _ _ _ _ _ root) by done.
      cbn [fst]. unfold converted_lines.
      destruct (write_file fs _ _) as [[e|] fs']; done.
    + left. exists content, root.
      rewrite (parse_within_deep _ _ _ _ _ _ root) by (done || lia).
      repeat split; try done. lia.
  - assert ((exists d, e = ParseError d) \/ forall d, e <> ParseError d)
      as [[d ->]|Hother]
      by (destruct e; first [by left; eexists | by right]).
    + left. exists content, d.
      by rewrite (parse_within_parse_error _ _ _ _ _ _ d).
    + right; left. exists content, e.
      by rewrite (parse_within_other_exception _ _ _ _ _ _ e).
Qed.

End FileConversion.

(** ** The cost script *)

Example main_example :
  NeetSheetsROI.main [ "yes"; "no"; "yes"; "yes"; "stairs"; "yes"; "yes";
                       "Mattress lifting "; "Neck"; "n" ]
  = ([ NeetSheetsROI.Prompt NeetSheetsROI.ask_another;
       NeetSheetsROI.Prompt NeetSheetsROI.ask_injured;
       NeetSheetsROI.Print "No cost for this attendant.";
       NeetSheetsROI.Prompt NeetSheetsROI.ask_another;
       NeetSheetsROI.Prompt NeetSheetsROI.ask_injured;
       NeetSheetsROI.Prompt NeetSheetsROI.ask_location;
       NeetSheetsROI.Print "No cost for this injury location.";
       NeetSheetsROI.Prompt NeetSheetsROI.ask_another;
       NeetSheetsROI.Prompt NeetSheetsROI.ask_injured;
       NeetSheetsROI.Prompt NeetSheetsROI.ask_location;
       NeetSheetsROI.Prompt NeetSheetsROI.ask_type;
       NeetSheetsROI.Print "Workers compensation cost for neck: $3000";
       NeetSheetsROI.Prompt NeetSheetsROI.ask_another;
       NeetSheetsROI.Print "Total losses are within acceptable limits.";
       NeetSheetsROI.Print "Total losses from workers' comp: $3000" ],
     Some 3000%N).
Proof. vm_compute. reflexivity. Qed.

Lemma get_cost_cases injury_type :
  (Py.lower injury_type = "shoulder"
   /\ NeetSheetsROI.get_cost injury_type = 5000%N)
  \/ (Py.lower injury_type = "back"
      /\ NeetSheetsROI.get_cost injury_type = 7000%N)
  \/ (Py.lower injury_type = "neck"
      /\ NeetSheetsROI.get_cost injury_type = 3000%N)
  \/ (Py.lower injury_type <> "shoulder"
      /\ Py.lower injury_type <> "back"
      /\ Py.lower injury_type <> "neck"
      /\ NeetSheetsROI.get_cost injury_type = 0%N).
Proof.
  unfold NeetSheetsROI.get_cost, NeetSheetsROI.costs.
  destruct (decide (Py.lower injury_type = "shoulder")) as [->|H1];
    [by left|].
  destruct (decide (Py.lower injury_type = "back")) as [->|H2];
    [by right; left|].
  destruct (decide (Py.lower injury_type = "neck")) as [->|H3];
    [by right; right; left|].
  right; right; right.
  rewrite !lookup_insert_ne by done. rewrite lookup_singleton_ne by done.
  done.
Qed.

(** X11: [get_cost] does not look at the case of the letters; it gives
    5000, 7000 and 3000 for [shoulder], [back] and [neck], 0 for every
    other word, and so never more than 7000. *)
Theorem get_cost_values (injury_type : string) :
  NeetSheetsROI.get_cost (Py.lower injury_type)
  = NeetSheetsROI.get_cost injury_type
  /\ NeetSheetsROI.get_cost injury_type
     = (if String.eqb (Py.lower injury_type) "shoulder" then 5000
        else if String.eqb (Py.lower injury_type) "back" then 7000
        else if String.eqb (Py.lower injury_type) "neck" then 3000
        else 0)%N
  /\ (NeetSheetsROI.get_cost injury_type <= 7000)%N.
Proof.
  split; [|split].
  - unfold NeetSheetsROI.get_cost. by rewrite lower_idempotent.
  - destruct (get_cost_cases injury_type)
      as [[-> ->]|[[-> ->]|[[-> ->]|(H1 & H2 & H3 & ->)]]]; try done.
    apply String.eqb_neq in H1, H2, H3. by rewrite H1, H2, H3.
  - destruct (get_cost_cases injury_type)
      as [[_ ->]|[[_ ->]|[[_ ->]|(_ & _ & _ & ->)]]]; lia.
Qed.

Lemma get_cost_bound injury_type :
  (NeetSheetsROI.get_cost injury_type <= 7000)%N.
Proof.
  destruct (get_cost_cases injury_type)
    as [[_ ->]|[[_ ->]|[[_ ->]|(_ & _ & _ & ->)]]]; lia.
Qed.

Lemma injuries_app w1 w2 :
  NeetSheetsROI.injuries (w1 ++ w2)
  = NeetSheetsROI.injuries w1 + NeetSheetsROI.injuries w2.
Proof.
  unfold NeetSheetsROI.injuries. by rewrite List.filter_app, length_app.
Qed.

(** What the loop keeps true: the total only grows, by at most 7000 for
    each injury asked for its type; the loop does not print the line of
    the call; and when [input] raises, the last thing written is a
    prompt. *)
Lemma attendants_invariant n :
  forall stdin total,
    length stdin <= n ->
    let run := NeetSheetsROI.attendants stdin total in
    ~ In (NeetSheetsROI.Print "CEO will schedule a call.") (fst run)
    /\ match snd run with
       | Some total' =>
           (total <= total')%N
           /\ (total'
               <= total + 7000 * N.of_nat (NeetSheetsROI.injuries (fst run)))%N
       | None => exists text, last (fst run) = Some (NeetSheetsROI.Prompt text)
       end.
Proof.
  induction n as [|n IH]; intros stdin total Hlen run; subst run.
  { destruct stdin; [|simpl in Hlen; lia]. simpl. split.
    - intros [H|[]]; discriminate.
    - by eexists. }
  destruct stdin as [|line1 stdin1].
  { simpl. split; [intros [H|[]]; discriminate | by eexists]. }
  cbn [NeetSheetsROI.attendants].
  destruct (negb _) eqn:Hadd.
  { cbn [fst snd]. split; [intros [H|[]]; discriminate|].
    unfold NeetSheetsROI.injuries. simpl. lia. }
  destruct stdin1 as [|line2 stdin2].
  { cbn [fst snd]. split; [intros [H|[H|[]]]; discriminate | by eexists]. }
  destruct (String.eqb (NeetSheetsROI.answer line2) "yes") eqn:Hstatus.
  2:{ cbn [fst snd].
      destruct (IH stdin2 total ltac:(simpl in Hlen; lia)) as [Hceo Hres].
      split.
      - intros [H|[H|[H|H]]]; try discriminate. by apply Hceo.
      - destruct (snd (NeetSheetsROI.attendants stdin2 total)) as [total'|].
        + rewrite injuries_app.
          change (NeetSheetsROI.injuries
                    [NeetSheetsROI.Prompt NeetSheetsROI.ask_another;
                     NeetSheetsROI.Prompt NeetSheetsROI.ask_injured;
                     NeetSheetsROI.Print "No cost for this attendant."])
            with 0.
          simpl plus. lia.
        + destruct Hres as [text Htext]. exists text.
          rewrite last_app, Htext. done. }
  destruct stdin2 as [|line3 stdin3].
  { cbn [fst snd]. split; [intros [H|[H|[H|[]]]]; discriminate | by eexists]. }
  destruct (_ || _) eqn:Hloc.
  2:{ cbn [fst snd].
      destruct (IH stdin3 total ltac:(simpl in Hlen; lia)) as [Hceo Hres].
      split.
      - intros [H|[H|[H|[H|H]]]]; try discriminate. by apply Hceo.
      - destruct (snd (NeetSheetsROI.attendants stdin3 total)) as [total'|].
        + rewrite injuries_app.
          change (NeetSheetsROI.injuries
                    [NeetSheetsROI.Prompt NeetSheetsROI.ask_another;
                     NeetSheetsROI.Prompt NeetSheetsROI.ask_injured;
                     NeetSheetsROI.Prompt NeetSheetsROI.ask_location;
                     NeetSheetsROI.Print "No cost for this injury location."])
            with 0.
          simpl plus. lia.
        + destruct Hres as [text Htext]. exists text.
          rewrite last_app, Htext. done. }
  destruct stdin3 as [|line4 stdin4].
  { cbn [fst snd].
    split; [intros [H|[H|[H|[H|[]]]]]; discriminate | by eexists]. }
  cbn [fst snd].
  set (cost := NeetSheetsROI.get_cost (NeetSheetsROI.answer line4)).
  pose proof (get_cost_bound (NeetSheetsROI.answer line4)) as Hcost.
  fold cost in Hcost.
  destruct (IH stdin4 (total + cost)%N ltac:(simpl in Hlen; lia))
    as [Hceo Hres].
  split.
  - intros [H|[H|[H|[H|[H|H]]]]]; try discriminate. by apply Hceo.
  - destruct (snd (NeetSheetsROI.attendants stdin4 (total + cost)%N))
      as [total'|].
    + rewrite injuries_app.
      assert (NeetSheetsROI.injuries
                [NeetSheetsROI.Prompt NeetSheetsROI.ask_another;
                 NeetSheetsROI.Prompt NeetSheetsROI.ask_injured;
                 NeetSheetsROI.Prompt NeetSheetsROI.ask_location;
                 NeetSheetsROI.Prompt NeetSheetsROI.ask_type;
                 NeetSheetsROI.Print
                   ("Workers compensation cost for "
                    +:+ NeetSheetsROI.answer line4 +:+ ": $" +:+ pretty cost)]
              = 1) as -> by reflexivity.
      lia.
    + destruct Hres as [text Htext]. exists text.
      rewrite last_app, Htext. done.
Qed.

(** X12: when [main] ends normally, it has printed the line of the call
    exactly when the total is above 25000; the total is at most 7000 for
    each injury that was asked for its type, so the call needs at least
    four such injuries; and the last line names the total. *)
Theorem main_call_needs_four_injuries
        (stdin : list string) (written : list NeetSheetsROI.output)
        (total_losses : N) :
  NeetSheetsROI.main stdin = (written, Some total_losses) ->
  (In (NeetSheetsROI.Print "CEO will schedule a call.") written
   <-> (25000 < total_losses)%N)
  /\ (total_losses <= 7000 * N.of_nat (NeetSheetsROI.injuries written))%N
  /\ (In (NeetSheetsROI.Print "CEO will schedule a call.") written ->
      4 <= NeetSheetsROI.injuries written)
  /\ last written
     = Some (NeetSheetsROI.Print
               ("Total losses from workers' comp: $" +:+ pretty total_losses)).
Proof.
  unfold NeetSheetsROI.main.
  pose proof (attendants_invariant (length stdin) stdin 0%N (le_n _))
    as [Hceo Hres]. cbv zeta in Hceo, Hres.
  destruct (NeetSheetsROI.attendants stdin 0%N) as [loop_written [total|]];
    [|done].
  cbn [fst snd] in Hceo, Hres. intros [= <- <-].
  destruct Hres as [_ Hbound].
  assert (NeetSheetsROI.injuries
            (loop_written
             ++ [ NeetSheetsROI.Print
                    (if (25000 <? total)%N
                     then "CEO will schedule a call."
                     else "Total losses are within acceptable limits.");
                  NeetSheetsROI.Print
                    ("Total losses from workers' comp: $" +:+ pretty total) ])
          = NeetSheetsROI.injuries loop_written) as Hinj.
  { rewrite injuries_app. unfold NeetSheetsROI.injuries at 2. simpl. lia. }
  assert (In (NeetSheetsROI.Print "CEO will schedule a call.")
             (loop_written
              ++ [ NeetSheetsROI.Print
                     (if (25000 <? total)%N
                      then "CEO will schedule a call."
                      else "Total losses are within acceptable limits.");
                   NeetSheetsROI.Print
                     ("Total losses from workers' comp: $" +:+ pretty total) ])
          <-> (25000 < total)%N) as Hcall.
  { rewrite in_app_iff. split.
    - intros [H|[H|[H|[]]]]; [done| |discriminate].
      destruct (N.ltb_spec 25000 total); [done | discriminate].
    - intros Hlt. right. left.
      by destruct (N.ltb_spec 25000 total); [|lia]. }
  rewrite Hinj. split; [exact Hcall|]. split; [lia|]. split.
  - intros Hin%Hcall. lia.
  - rewrite last_app. done.
Qed.

Lemma main_call_needs_four_injuries_witness :
  In (NeetSheetsROI.Print "CEO will schedule a call.")
     (fst (NeetSheetsROI.main NeetSheetsROI.four_back_injuries))
  <-> (25000 < 28000)%N.
Proof.
  exact (proj1 (main_call_needs_four_injuries
                  NeetSheetsROI.four_back_injuries
                  (fst (NeetSheetsROI.main NeetSheetsROI.four_back_injuries))
                  28000%N eq_refl)).
Defined.

Lemma attendants_complete stdin :
  NeetSheetsROI.complete stdin ->
  forall total, is_Some (snd (NeetSheetsROI.attendants stdin total)).
Proof.
  induction 1 as [line rest Hstop
                 |line1 line2 rest H1 H2 _ IH
                 |line1 line2 line3 rest H1 H2 H3 _ IH
                 |line1 line2 line3 line4 rest H1 H2 H3 _ IH];
    intros total; cbn [NeetSheetsROI.attendants].
  - apply String.eqb_neq in Hstop. rewrite Hstop. by eexists.
  - apply String.eqb_neq in H2. rewrite H1, H2. cbn. apply IH.
  - unfold NeetSheetsROI.known_location in H3. rewrite H1, H2, H3. cbn.
    apply IH.
  - unfold NeetSheetsROI.known_location in H3. rewrite H1, H2, H3. cbn.
    apply IH.
Qed.

(** What the loop writes, and when it ends: it prints no line that starts
    like the two closing lines of [main], and it leaves by [break] only on
    a complete dialog. *)
Lemma attendants_end n :
  forall stdin total,
    length stdin <= n ->
    let run := NeetSheetsROI.attendants stdin total in
    (forall line,
        In (NeetSheetsROI.Print line) (fst run) ->
        Py.startswith "Total losses" line = false)
    /\ (is_Some (snd run) -> NeetSheetsROI.complete stdin).
Proof.
  induction n as [|n IH]; intros stdin total Hlen run; subst run.
  { destruct stdin; [|simpl in Hlen; lia]. simpl. split.
    - intros line [H|[]]; discriminate.
    - intros [? ?]; discriminate. }
  destruct stdin as [|line1 stdin1].
  { simpl. split; [intros line [H|[]]; discriminate|].
    intros [? ?]; discriminate. }
  cbn [NeetSheetsROI.attendants].
  destruct (String.eqb (NeetSheetsROI.answer line1) "yes") eqn:Hadd;
    cbn [negb].
  2:{ cbn [fst snd]. split; [intros line [H|[]]; discriminate|].
      intros _. apply NeetSheetsROI.complete_stop.
      by apply String.eqb_neq. }
  apply String.eqb_eq in Hadd.
  destruct stdin1 as [|line2 stdin2].
  { cbn [fst snd]. split; [intros line [H|[H|[]]]; discriminate|].
    intros [? ?]; discriminate. }
  destruct (String.eqb (NeetSheetsROI.answer line2) "yes") eqn:Hstatus.
  2:{ cbn [fst snd].
      destruct (IH stdin2 total ltac:(simpl in Hlen; lia)) as [Hprint Hend].
      split.
      - intros line [H|[H|[H|H]]]; try discriminate.
        + by injection H as <-.
        + by apply Hprint.
      - intros Hsome. apply NeetSheetsROI.complete_uninjured; try done.
        + by apply String.eqb_neq.
        + by apply Hend. }
  apply String.eqb_eq in Hstatus.
  destruct stdin2 as [|line3 stdin3].
  { cbn [fst snd]. split; [intros line [H|[H|[H|[]]]]; discriminate|].
    intros [? ?]; discriminate. }
  fold (NeetSheetsROI.known_location (NeetSheetsROI.answer line3)).
  destruct (NeetSheetsROI.known_location (NeetSheetsROI.answer line3))
    eqn:Hloc.
  2:{ cbn [fst snd].
      destruct (IH stdin3 total ltac:(simpl in Hlen; lia)) as [Hprint Hend].
      split.
      - intros line [H|[H|[H|[H|H]]]]; try discriminate.
        + by injection H as <-.
        + by apply Hprint.
      - intros Hsome.
        apply NeetSheetsROI.complete_unknown_location; try done.
        by apply Hend. }
  destruct stdin3 as [|line4 stdin4].
  { cbn [fst snd]. split; [intros line [H|[H|[H|[H|[]]]]]; discriminate|].
    intros [? ?]; discriminate. }
  cbn [fst snd].
  destruct (IH stdin4
              (total + NeetSheetsROI.get_cost (NeetSheetsROI.answer line4))%N
              ltac:(simpl in Hlen; lia)) as [Hprint Hend].
  split.
  - intros line [H|[H|[H|[H|[H|H]]]]]; try discriminate.
    + by injection H as <-.
    + by apply Hprint.
  - intros Hsome. apply NeetSheetsROI.complete_injury; try done.
    by apply Hend.
Qed.

(** X13: [main] stops with the [EOFError] of [input] exactly when the
    standard input is not a complete dialog, that is, when it ends before
    a line answers something other than [yes] to the question for another
    attendant.  The last thing written is then a prompt, and neither of
    the two closing lines (the verdict and the total) nor the line of the
    call has been printed. *)
Theorem main_end_of_input (stdin : list string) :
  (snd (NeetSheetsROI.main stdin) = None <-> ~ NeetSheetsROI.complete stdin)
  /\ (~ NeetSheetsROI.complete stdin ->
      (exists text,
          last (fst (NeetSheetsROI.main stdin))
          = Some (NeetSheetsROI.Prompt text))
      /\ (forall line,
            In (NeetSheetsROI.Print line) (fst (NeetSheetsROI.main stdin)) ->
            Py.startswith "Total losses" line = false)
      /\ ~ In (NeetSheetsROI.Print "CEO will schedule a call.")
            (fst (NeetSheetsROI.main stdin))).
Proof.
  pose proof (attendants_invariant (length stdin) stdin 0%N (le_n _))
    as [Hceo Hres].
  pose proof (attendants_end (length stdin) stdin 0%N (le_n _))
    as [Hprint Hend].
  pose proof (attendants_complete stdin) as Hcomplete.
  cbv zeta in Hceo, Hres, Hprint, Hend.
  unfold NeetSheetsROI.main.
  destruct (NeetSheetsROI.attendants stdin 0%N)
    as [loop_written [total|]] eqn:Hrun; cbn [fst snd] in *.
  - assert (NeetSheetsROI.complete stdin) as Hc by (apply Hend; by eexists).
    split.
    + split; [intros [=] | intros Hnot; destruct (Hnot Hc)].
    + intros Hnot; destruct (Hnot Hc).
  - assert (~ NeetSheetsROI.complete stdin) as Hnot.
    { intros Hc. destruct (Hcomplete Hc 0%N) as [t Ht].
      rewrite Hrun in Ht. discriminate. }
    split; [done|]. intros _. done.
Qed.

Lemma main_end_of_input_witness :
  snd (NeetSheetsROI.main [ "yes"; "yes" ]) = None
  /\ exists text,
       last (fst (NeetSheetsROI.main [ "yes"; "yes" ]))
       = Some (NeetSheetsROI.Prompt text).
Proof.
  assert (~ NeetSheetsROI.complete [ "yes"; "yes" ]) as Hnot.
  { intros H. inversion H; subst;
      match goal with
      | Hne : NeetSheetsROI.answer _ <> _ |- _ => by apply Hne
      end. }
  destruct (main_end_of_input [ "yes"; "yes" ]) as [Hiff Hthen].
  exact (conj (proj2 Hiff Hnot) (proj1 (Hthen Hnot))).
Defined.

(** ** The earlier visitor *)

Lemma earlier_emitted_unfold element :
  Earlier.emitted element
  = Earlier.opening element
    ++ (if Earlier.recurses element
        then concat (map Earlier.emitted (children element))
        else [])
    ++ Earlier.closing element.
Proof. by destruct element. Qed.

Lemma earlier_children_appends (cs : list Element) :
  Forall (fun c => appends (Earlier._process_element c) tt (Earlier.emitted c))
         cs ->
  appends (for_each cs Earlier._process_element) tt
          (concat (map Earlier.emitted cs)).
Proof.
  induction 1 as [|c cs Hc Hcs IH].
  - apply appends_ret.
  - apply (appends_bind (Earlier._process_element c) _ tt tt _ _ Hc IH).
Qed.

(** Case analysis on the lower-cased tag, one literal of the chain after
    the other. *)
Ltac tag_cases t :=
  repeat match goal with
         | |- context [String.eqb (Py.lower t) ?v] =>
             let Heq := fresh "Htag" in
             destruct (String.eqb_spec (Py.lower t) v) as [Heq|Heq];
             [try rewrite Heq; simpl String.eqb; cbv iota|]
         end.

Lemma earlier_process_element_appends element :
  appends (Earlier._process_element element) tt (Earlier.emitted element).
Proof.
  induction element as [t a x cs IH] using Element_tree_ind.
  apply earlier_children_appends in IH.
  rewrite earlier_emitted_unfold.
  unfold Earlier.opening, Earlier.closing, Earlier.recurses.
  set (e := mkElement t a x cs) in *.
  change (Earlier._process_element e) with
    (let element_tag := tag e in
     let tag := Py.lower element_tag in
     if String.eqb tag "poml" then
       for_each (children e) Earlier._process_element
     else if String.eqb tag "let" then
       append (set_name_value (get e "name" "") (get e "value" "")) ;;;
       append ""
     else if String.eqb tag "task" then
       append "end();" ;;;
       task_text <- stripped_text e ;;
       append ("input(" +:+ task_text +:+ ");")
     else if String.eqb tag "if" then
       append "branch( if );" ;;;
       append (Earlier.path_line (get e "condition" "")) ;;;
       for_each (children e) Earlier._process_element
     else if String.eqb tag "for" then
       append (Earlier.loop_line (get e "each" "") (get e "in" "")) ;;;
       for_each (children e) Earlier._process_element ;;;
       append (Earlier.lend_line (get e "each" ""))
     else if String.eqb tag "else if" || String.eqb tag "elseif" then
       append (Earlier.path_if_line (get e "condition" "")) ;;;
       for_each (children e) Earlier._process_element
     else if String.eqb tag "else" then
       append "path(else);" ;;;
       for_each (children e) Earlier._process_element ;;;
       append "bend();"
     else if String.eqb tag "p" then
       text <- stripped_text e ;;
       append ("output(" +:+ text +:+ ");")
     else
       text <- stripped_text e ;;
       append (Earlier.wrapper_line element_tag text) ;;;
       for_each (children e) Earlier._process_element).
  cbv zeta. change (children e) with cs in *. change (tag e) with t in *.
  tag_cases t; simpl orb; simpl negb; cbv iota;
    (eapply appends_eq;
     [ repeat (first [ apply IH
                     | apply appends_append
                     | apply stripped_text_appends
                     | eapply appends_bind ])
     | simpl; rewrite ?app_nil_r; try done ]).
Qed.

Lemma earlier_recurses element :
  Earlier.recurses element = recurses element.
Proof.
  unfold Earlier.recurses, recurses, rule_of. cbv zeta.
  by tag_cases (tag element).
Qed.

Lemma stripped_text_run element self :
  stripped_text element self = (Ok (text_field element), self).
Proof.
  rewrite (appends_run _ _ _ _ (stripped_text_appends element)).
  by rewrite appended_nil.
Qed.

Lemma earlier_visit_shape recur element self :
  Earlier.visit recur element self
  = (extend (Earlier.opening element) ;;;
     (if Earlier.recurses element
      then for_each (children element) recur else ret tt) ;;;
     extend (Earlier.closing element)) self.
Proof.
  unfold Earlier.visit, Earlier.opening, Earlier.closing, Earlier.recurses.
  cbv zeta. destruct self as [ls il].
  tag_cases (tag element); simpl;
    unfold bind, append, extend, ret;
    rewrite ?stripped_text_run;
    cbn [vfc_lines indent_level];
    rewrite <- ?app_assoc; cbn [app]; rewrite ?app_nil_r;
    try (destruct (for_each _ _ _) as [[[]|?] [? ?]]);
    cbn [vfc_lines indent_level];
    rewrite ?app_nil_r; done.
Qed.

Lemma earlier_within_outcome frames element self :
  exists ls,
    Earlier._process_element_within frames element self
    = (if decide (depth_of Earlier.recurses element <= frames)
       then Ok tt else Raise RecursionError,
       appended self ls)
    /\ (depth_of Earlier.recurses element <= frames ->
        ls = Earlier.emitted element).
Proof.
  apply (call_within_outcome Earlier.opening Earlier.closing Earlier.recurses
           Earlier.emitted Earlier.visit
           earlier_emitted_unfold earlier_visit_shape).
Qed.

(** X14: the visitor of [_POML2VFC.py], too, only appends.  When the
    interpreter allows as many nested calls as the tree is deep it returns
    normally, and the lines it appends depend neither on the converter
    object nor on the number of calls allowed; when the tree is deeper it
    raises [RecursionError]; in both cases the entries that the buffer
    held and [indent_level] are kept.  The depth is that of the walk of
    [POML2VFC.py]: both visitors stop at [let], [task] and [p]. *)
Theorem earlier_visitor_appends_within (element : Element) :
  exists lines,
    forall frames self,
      exists appended_lines,
        Earlier._process_element_within frames element self
        = (if decide (depth element <= frames)
           then Ok tt else Raise RecursionError,
           {| vfc_lines := vfc_lines self ++ appended_lines;
              indent_level := indent_level self |})
        /\ (depth element <= frames -> appended_lines = lines).
Proof.
  exists (Earlier.emitted element). intros frames self.
  assert (depth_of Earlier.recurses element = depth element) as <-.
  { unfold depth.
    induction element as [t a x cs IH] using Element_tree_ind.
    rewrite !depth_of_unfold, earlier_recurses.
    destruct (recurses _); [|done]. f_equal. f_equal. simpl children.
    induction IH as [|c cs' Hc _ IHcs]; simpl; [done|].
    by rewrite Hc, IHcs. }
  apply earlier_within_outcome.
Qed.

Lemma earlier_count_tokens_own keyword element :
  block_keyword keyword ->
  count_tokens keyword (Earlier.opening element)
  + count_tokens keyword (Earlier.closing element)
  = if decide (rule_of element = keyword_rule keyword) then 1 else 0.
Proof.
  intros Hk. unfold Earlier.opening, Earlier.closing, rule_of. cbv zeta.
  tag_cases (tag element); simpl orb; cbv iota;
    by destruct Hk as [->|[->|[->| ->]]].
Qed.

Lemma earlier_count_tokens_emitted keyword element :
  block_keyword keyword ->
  count_tokens keyword (Earlier.emitted element)
  = visited (keyword_rule keyword) element.
Proof.
  intros Hk. induction element as [t a x cs IH] using Element_tree_ind.
  rewrite earlier_emitted_unfold, visited_unfold, !count_tokens_app.
  rewrite <- (earlier_count_tokens_own keyword _ Hk), earlier_recurses.
  set (e := mkElement t a x cs).
  change (children e) with cs.
  assert (count_tokens keyword (concat (map Earlier.emitted cs))
          = visited_all (keyword_rule keyword) cs) as Hcs.
  { unfold visited_all. rewrite count_tokens_concat.
    induction IH as [|c cs' Hc _ IHcs]; simpl; [done|].
    by rewrite Hc, IHcs. }
  destruct (recurses e); [rewrite Hcs|]; unfold count_tokens; simpl; lia.
Qed.

(** X15: the two converters word their lines differently but open and
    close the same blocks: for every document the visitor of
    [_POML2VFC.py] and the visitor of [POML2VFC.py] append as many [loop],
    as many [lend], as many [branch] and as many [bend] tokens. *)
Theorem visitors_agree_on_block_tokens (root : Element) (keyword : string) :
  keyword = "loop" \/ keyword = "lend" \/ keyword = "branch"
  \/ keyword = "bend" ->
  count_tokens keyword
    (vfc_lines (snd (Earlier._process_element root __init__)))
  = count_tokens keyword (vfc_lines (snd (_process_element root __init__))).
Proof.
  intros Hk.
  rewrite (earlier_process_element_appends root __init__).
  rewrite process_element_run. cbn [snd vfc_lines appended __init__ app].
  rewrite earlier_count_tokens_emitted, count_tokens_emitted; done.
Qed.

Lemma visitors_agree_on_block_tokens_witness :
  count_tokens "bend"
    (vfc_lines (snd (Earlier._process_element for_if_else __init__)))
  = count_tokens "bend"
      (vfc_lines (snd (_process_element for_if_else __init__))).
Proof.
  exact (visitors_agree_on_block_tokens for_if_else "bend"
           (or_intror (or_intror (or_intror eq_refl)))).
Defined.

(** The two visitors on the sample document. *)
Example earlier_visitor_example :
  vfc_lines (snd (Earlier._process_element for_if_else __init__))
  = [ Earlier.loop_line "x" "xs";
      "branch( if );";
      Earlier.path_line "c";
      "output(a);";
      "path(else);";
      "output(b);";
      "bend();";
      Earlier.lend_line "x" ]
  /\ Earlier.loop_line "x" "xs" = "loop( for each x  in xs  );"
  /\ Earlier.lend_line "x" = "lend( next x );".
Proof. repeat split; reflexivity. Qed.
